(** * Capacity recommender of the hall / bus booking pages

    A shallow embedding of the [input] listeners that the booking pages
    attach to the head-count field:

    - the room recommender ([countInput], element [studentCount]) of
      [core/static/js/timetable.js], repeated verbatim on the other
      room-booking pages;
    - the bus recommender ([headcountInput]) of the bus-booking page, which
      additionally gates the submit button;
    - the synchronous form helpers beside them: the custom-time toggle,
      [toggleExternalFields], [validateTime] and the [min] date.

    Modelling conventions.

    - A JavaScript string is the list of its UTF-16 code units.
    - A JavaScript Number is an exact integer, [NaN] or a signed infinity.
      This agrees with IEEE doubles on the integers of magnitude up to
      2^53; room and bus capacities are far inside that range.
    - The page is an explicit record; a listener is a function from the
      text of the input field and the page to the page.  A reference to an
      [<option>] element of the (fixed) [NodeList] is its index.
    - The elements the listeners look up with [getElementById] are present
      on the page, and every [<option>] carries a [value] attribute. *)

From Stdlib Require Import ZArith Lia String Ascii DecimalPos.
From stdpp Require Import base list numbers.

Local Open Scope Z_scope.
Local Open Scope list_scope.

(** ** The JavaScript fragment used by the listeners *)

Module JS.

(** UTF-16 code units. *)
Definition jsstring := list N.

(** An ASCII literal as a JavaScript string. *)
Definition lit (s : string) : jsstring :=
  map N_of_ascii (list_ascii_of_string s).

(** The double quote, U+0022. *)
Definition dq : jsstring := [34%N].

(** Number values. *)
Inductive num : Type :=
| NaN
| NegInf
| Fin (z : Z)
| PosInf.

(** [a < b]; every comparison with [NaN] is false. *)
Definition lt (a b : num) : bool :=
  match a, b with
  | NaN, _ | _, NaN => false
  | NegInf, NegInf => false
  | NegInf, _ => true
  | Fin _, NegInf => false
  | Fin x, Fin y => x <? y
  | Fin _, PosInf => true
  | PosInf, _ => false
  end.

(** [a > b], evaluated by JavaScript as [b < a]. *)
Definition gt (a b : num) : bool := lt b a.

(** [a >= b]: neither operand is [NaN] and [a < b] is false. *)
Definition ge (a b : num) : bool :=
  match a, b with
  | NaN, _ | _, NaN => false
  | _, _ => negb (lt a b)
  end.

(** [a - b]. *)
Definition sub (a b : num) : num :=
  match a, b with
  | NaN, _ | _, NaN => NaN
  | Fin x, Fin y => Fin (x - y)
  | PosInf, PosInf | NegInf, NegInf => NaN
  | PosInf, _ | _, NegInf => PosInf
  | NegInf, _ | _, PosInf => NegInf
  end.

(** ToBoolean on numbers: [NaN] and zero are falsy. *)
Definition truthy (a : num) : bool :=
  match a with
  | NaN => false
  | Fin z => negb (z =? 0)
  | _ => true
  end.

(** [a || b] on numbers. *)
Definition or (a b : num) : num := if truthy a then a else b.

(** White space and line terminators skipped by [parseInt]. *)
Definition isWhiteSpace (c : N) : bool :=
  ((9 <=? c) && (c <=? 13) || (c =? 32) || (c =? 160) || (c =? 5760)
   || (8192 <=? c) && (c <=? 8202) || (c =? 8232) || (c =? 8233)
   || (c =? 8239) || (c =? 8287) || (c =? 12288) || (c =? 65279))%N.

Fixpoint trimStart (s : jsstring) : jsstring :=
  match s with
  | c :: t => if isWhiteSpace c then trimStart t else s
  | [] => []
  end.

(** Value of a code unit read as a digit in some radix up to 36. *)
Definition digitValue (c : N) : option Z :=
  if ((48 <=? c) && (c <=? 57))%N then Some (Z.of_N c - 48)
  else if ((97 <=? c) && (c <=? 122))%N then Some (Z.of_N c - 87)
  else if ((65 <=? c) && (c <=? 90))%N then Some (Z.of_N c - 55)
  else None.

(** The longest prefix of radix-[R] digits, as an integer; [acc] is the
    value read so far, [None] while no digit has been read. *)
Fixpoint digits (R : Z) (s : jsstring) (acc : option Z) : option Z :=
  match s with
  | c :: t =>
      match digitValue c with
      | Some v =>
          if v <? R then digits R t (Some (default 0 acc * R + v)) else acc
      | None => acc
      end
  | [] => acc
  end.

(** [parseInt(s)] with no radix argument. *)
Definition parseInt (s : jsstring) : num :=
  let s1 := trimStart s in
  let '(sign, s2) :=
    match s1 with
    | 45%N :: t => (-1, t)
    | 43%N :: t => (1, t)
    | _ => (1, s1)
    end in
  let '(R, s3) :=
    match s2 with
    | 48%N :: 120%N :: t | 48%N :: 88%N :: t => (16, t)
    | _ => (10, s2)
    end in
  match digits R s3 None with
  | None => NaN
  | Some m => Fin (sign * m)
  end.

(** Decimal digits of an unsigned decimal numeral. *)
Fixpoint uint_units (d : Decimal.uint) : jsstring :=
  match d with
  | Decimal.Nil => []
  | Decimal.D0 d => 48%N :: uint_units d
  | Decimal.D1 d => 49%N :: uint_units d
  | Decimal.D2 d => 50%N :: uint_units d
  | Decimal.D3 d => 51%N :: uint_units d
  | Decimal.D4 d => 52%N :: uint_units d
  | Decimal.D5 d => 53%N :: uint_units d
  | Decimal.D6 d => 54%N :: uint_units d
  | Decimal.D7 d => 55%N :: uint_units d
  | Decimal.D8 d => 56%N :: uint_units d
  | Decimal.D9 d => 57%N :: uint_units d
  end.

(** ToString on numbers, as a template literal interpolates them. *)
Definition toString (a : num) : jsstring :=
  match a with
  | NaN => lit "NaN"
  | NegInf => lit "-Infinity"
  | PosInf => lit "Infinity"
  | Fin z =>
      match Z.to_int z with
      | Decimal.Pos d => uint_units d
      | Decimal.Neg d => 45%N :: uint_units d
      end
  end.

(** A value that is a string or [null] ([getAttribute]'s result),
    converted to a string: [null] becomes the text "null". *)
Definition str (a : option jsstring) : jsstring :=
  match a with
  | Some s => s
  | None => lit "null"
  end.

End JS.

Import JS.

(** ** The fragment of the DOM the listeners touch *)

Module DOM.

(** An [<option>] of the select box.  [value], [data-capacity] and
    [data-name] are rendered by the server and never written by the
    scripts; [disabled] and [textContent] are rewritten in place by every
    evaluation.  [getAttribute] answers [null] for a missing attribute. *)
Record option_elt : Type := mkOption {
  value : jsstring;
  data_capacity : option jsstring;
  data_name : option jsstring;
  disabled : bool;
  textContent : jsstring
}.

Definition set_disabled (b : bool) (opt : option_elt) : option_elt :=
  mkOption (value opt) (data_capacity opt) (data_name opt) b (textContent opt).

Definition set_textContent (t : jsstring) (opt : option_elt) : option_elt :=
  mkOption (value opt) (data_capacity opt) (data_name opt) (disabled opt) t.

(** [select.value = v]: the first option, in tree order, whose value is
    [v] becomes the selected one; with no such option nothing is
    selected. *)
Definition select_set_value (v : jsstring) (opts : list option_elt)
  : option nat :=
  fst <$> list_find (fun opt => value opt = v) opts.

(** [select.value]: the value of the selected option, or the empty string. *)
Definition select_value (opts : list option_elt) (selected : option nat)
  : jsstring :=
  match selected with
  | Some i => from_option value [] (opts !! i)
  | None => []
  end.

(** The message element under the select box. *)
Record text_elt : Type := mkText {
  display : jsstring;
  className : jsstring;
  innerHTML : jsstring
}.

Definition set_display (v : jsstring) (e : text_elt) : text_elt :=
  mkText v (className e) (innerHTML e).

Definition set_className (v : jsstring) (e : text_elt) : text_elt :=
  mkText (display e) v (innerHTML e).

Definition set_innerHTML (v : jsstring) (e : text_elt) : text_elt :=
  mkText (display e) (className e) v.

(** The submit button of the bus page. *)
Record button_elt : Type := mkButton {
  btn_disabled : bool;
  btn_textContent : jsstring;
  btn_className : jsstring
}.

(** [classList]: the class attribute read as an ordered set of tokens
    separated by ASCII white space, and written back joined by one space. *)
Definition isAsciiWhitespace (c : N) : bool :=
  ((c =? 9) || (c =? 10) || (c =? 12) || (c =? 13) || (c =? 32))%N.

Definition push_token (cur : jsstring) (acc : list jsstring)
  : list jsstring :=
  if decide (cur = []) then acc
  else if decide (cur ∈ acc) then acc
  else acc ++ [cur].

Fixpoint parse_tokens (s cur : jsstring) (acc : list jsstring)
  : list jsstring :=
  match s with
  | [] => push_token cur acc
  | c :: t =>
      if isAsciiWhitespace c then parse_tokens t [] (push_token cur acc)
      else parse_tokens t (cur ++ [c]) acc
  end.

Definition serialize_tokens (ts : list jsstring) : jsstring :=
  match ts with
  | [] => []
  | t :: ts => t ++ concat (map (fun x => 32%N :: x) ts)
  end.

Definition classList_add (tok : jsstring) (cls : jsstring) : jsstring :=
  let ts := parse_tokens cls [] [] in
  serialize_tokens (if decide (tok ∈ ts) then ts else ts ++ [tok]).

Definition classList_remove (tok : jsstring) (cls : jsstring) : jsstring :=
  serialize_tokens (filter (fun t => t ≠ tok) (parse_tokens cls [] [])).

(** [NodeList.forEach] with a callback that rewrites the visited element
    and a loop state [St] (the [let] variables the callback closes over);
    [i] is the index of the first element of [opts]. *)
Fixpoint forEach {St : Type} (f : nat -> option_elt -> St -> option_elt * St)
    (i : nat) (opts : list option_elt) (st : St) : list option_elt * St :=
  match opts with
  | [] => ([], st)
  | opt :: rest =>
      let '(opt', st') := f i opt st in
      let '(rest', st'') := forEach f (S i) rest st' in
      (opt' :: rest', st'')
  end.

End DOM.

Import DOM.

(** The outcome of one evaluation, named after the branch the listener
    takes: a best-fit option was found (its index and its surplus), the
    no-fit diagnostic, or neither. *)
Inductive RecommendationResult : Type :=
| BestFit (candidate : nat) (surplus : num)
| NoFit (requiredCount : num)
| Empty.

(** Labels written into an option, shared by both listeners. *)
Definition tooSmallLabel (name : option jsstring) (capacity : num) : jsstring :=
  [10060%N] ++ lit " " ++ str name ++ lit " (Cap: " ++ toString capacity
    ++ lit ") - Too Small".

Definition fitsLabel (name : option jsstring) (capacity : num) : jsstring :=
  str name ++ lit " (Capacity: " ++ toString capacity ++ lit ")".

(** ** The room recommender: [countInput]'s [input] listener *)

Module Room.

(** [spaceSelect] with its options, and [recommendationText]. *)
Record page : Type := mkPage {
  options : list option_elt;
  spaceSelect : option nat;
  recommendText : text_elt
}.

(** The variables [bestFitOption] and [smallestDifference]. *)
Record scan : Type := mkScan {
  bestFitOption : option nat;
  smallestDifference : num
}.

Definition scan0 : scan := mkScan None PosInf.

(** The body of [options.forEach(opt => ...)]. *)
Definition visit (requiredSeats : num) (i : nat) (opt : option_elt)
    (st : scan) : option_elt * scan :=
  if decide (value opt = []) then (opt, st)
  else
    let capacity := parseInt (str (data_capacity opt)) in
    let name := data_name opt in
    if lt capacity requiredSeats then
      (set_textContent (tooSmallLabel name capacity) (set_disabled true opt),
       st)
    else
      let opt' :=
        set_textContent (fitsLabel name capacity) (set_disabled false opt) in
      let diff := sub capacity requiredSeats in
      if lt diff (smallestDifference st) then (opt', mkScan (Some i) diff)
      else (opt', st).

Definition bestFitMessage (name : option jsstring) : jsstring :=
  lit "<i class=" ++ dq ++ lit "bi bi-stars me-1" ++ dq
    ++ lit "></i> Auto-selected <strong>" ++ str name
    ++ lit "</strong> as the best fit!".

Definition noFitMessage (requiredSeats : num) : jsstring :=
  lit "<i class=" ++ dq ++ lit "bi bi-exclamation-circle me-1" ++ dq
    ++ lit "></i> No single room can hold " ++ toString requiredSeats
    ++ lit " students.".

Definition dangerClass : jsstring := lit "form-text text-danger fw-bold mt-2".

(** [parseInt(this.value) || 0]. *)
Definition requiredSeats_of (this_value : jsstring) : num :=
  or (parseInt this_value) (Fin 0).

(** The listener; [this_value] is the text of the input field.  The
    reference [bestFitOption] always points into [options]
    (see [forEach_bestFit_lookup]), so the last case is never taken. *)
Definition countInput_oninput (this_value : jsstring) (pg : page) : page :=
  let requiredSeats := requiredSeats_of this_value in
  let rt := set_display (lit "none") (recommendText pg) in
  let '(opts, st) := forEach (visit requiredSeats) 0 (options pg) scan0 in
  match bestFitOption st with
  | Some i =>
      match opts !! i with
      | Some best =>
          mkPage opts (select_set_value (value best) opts)
            (set_innerHTML (bestFitMessage (data_name best))
               (set_display (lit "block") rt))
      | None => mkPage opts (spaceSelect pg) rt
      end
  | None =>
      if gt requiredSeats (Fin 0) then
        mkPage opts (select_set_value [] opts)
          (set_innerHTML (noFitMessage requiredSeats)
             (set_className dangerClass (set_display (lit "block") rt)))
      else mkPage opts (spaceSelect pg) rt
  end.

(** The branch the listener takes for a requirement and a list of
    options. *)
Definition evaluate (requiredSeats : num) (opts : list option_elt)
  : RecommendationResult :=
  let st := snd (forEach (visit requiredSeats) 0 opts scan0) in
  match bestFitOption st with
  | Some i => BestFit i (smallestDifference st)
  | None => if gt requiredSeats (Fin 0) then NoFit requiredSeats else Empty
  end.

(** A sequence of [input] events, oldest first. *)
Definition run (inputs : list jsstring) (pg : page) : page :=
  foldl (fun p v => countInput_oninput v p) pg inputs.

End Room.

(** ** The bus recommender: [headcountInput]'s [input] listener *)

Module Bus.

(** [busSelect] with its options, [busSuggestionText] and [submitBtn]. *)
Record page : Type := mkPage {
  options : list option_elt;
  busSelect : option nat;
  suggestionText : text_elt;
  submitBtn : button_elt
}.

(** The variables [validBusFound], [bestFit] and [minWaste]. *)
Record scan : Type := mkScan {
  validBusFound : bool;
  bestFit : option nat;
  minWaste : num
}.

Definition scan0 : scan := mkScan false None PosInf.

(** The body of [options.forEach(opt => ...)]. *)
Definition visit (count : num) (i : nat) (opt : option_elt) (st : scan)
  : option_elt * scan :=
  if decide (value opt = []) then (opt, st)
  else
    let cap := parseInt (str (data_capacity opt)) in
    if gt count cap then
      (set_textContent (tooSmallLabel (data_name opt) cap)
         (set_disabled true opt),
       st)
    else
      let opt' :=
        set_textContent (fitsLabel (data_name opt) cap)
          (set_disabled false opt) in
      let waste := sub cap count in
      if lt waste (minWaste st) then (opt', mkScan true (Some i) waste)
      else (opt', mkScan true (bestFit st) (minWaste st)).

Definition resetClass : jsstring := lit "form-text fw-bold mt-2".

Definition noFitMessage (count : num) : jsstring :=
  lit "<i class=" ++ dq ++ lit "bi bi-x-circle-fill" ++ dq
    ++ lit "></i> No single vehicle can hold " ++ toString count
    ++ lit " people. Please contact Transport Officer directly.".

Definition bestFitMessage (name : option jsstring) (count : num) : jsstring :=
  lit "<i class=" ++ dq ++ lit "bi bi-stars" ++ dq
    ++ lit "></i> Auto-selected <strong>" ++ str name
    ++ lit "</strong> for " ++ toString count ++ lit " passengers.".

(** [parseInt(this.value) || 0]. *)
Definition count_of (this_value : jsstring) : num :=
  or (parseInt this_value) (Fin 0).

(** The listener.  As in the room recommender, [bestFit] always points
    into [options]. *)
Definition headcountInput_oninput (this_value : jsstring) (pg : page)
  : page :=
  let count := count_of this_value in
  let sg := set_className resetClass
              (set_display (lit "none") (suggestionText pg)) in
  let '(opts, st) := forEach (visit count) 0 (options pg) scan0 in
  if gt count (Fin 0) && negb (validBusFound st) then
    mkPage opts (select_set_value [] opts)
      (set_innerHTML (noFitMessage count)
         (set_className (classList_add (lit "text-danger") (className sg))
            (set_display (lit "block") sg)))
      (mkButton true (lit "Cannot Book: Too many passengers")
         (classList_remove (lit "btn-google")
            (classList_add (lit "btn-secondary")
               (btn_className (submitBtn pg)))))
  else
    match bestFit st with
    | Some i =>
        match opts !! i with
        | Some best =>
            mkPage opts (select_set_value (value best) opts)
              (set_innerHTML (bestFitMessage (data_name best) count)
                 (set_className
                    (classList_add (lit "text-success") (className sg))
                    (set_display (lit "block") sg)))
              (mkButton false (lit "Submit Request")
                 (classList_add (lit "btn-google")
                    (classList_remove (lit "btn-secondary")
                       (btn_className (submitBtn pg)))))
        | None => mkPage opts (busSelect pg) sg (submitBtn pg)
        end
    | None => mkPage opts (busSelect pg) sg (submitBtn pg)
    end.

(** The branch the listener takes. *)
Definition evaluate (count : num) (opts : list option_elt)
  : RecommendationResult :=
  let st := snd (forEach (visit count) 0 opts scan0) in
  if gt count (Fin 0) && negb (validBusFound st) then NoFit count
  else
    match bestFit st with
    | Some i => BestFit i (minWaste st)
    | None => Empty
    end.

Definition run (inputs : list jsstring) (pg : page) : page :=
  foldl (fun p v => headcountInput_oninput v p) pg inputs.

End Bus.

(** ** Vocabulary of the statements *)

(** The capacity of an option as both listeners read it:
    [parseInt(opt.getAttribute('data-capacity'))]. *)
Definition capacity_of (opt : option_elt) : num :=
  parseInt (str (data_capacity opt)).

(** What an evaluation reads of an option; [disabled] and [textContent]
    are only written. *)
Definition candidate_view (opt : option_elt)
  : jsstring * option jsstring * option jsstring :=
  (value opt, data_capacity opt, data_name opt).

(** The surplus with which an option takes part in the search for the
    best fit: none for the placeholder and for an option that is too
    small. *)
Definition surplus_at (r : num) (opt : option_elt) : option num :=
  if decide (value opt = []) then None
  else if lt (capacity_of opt) r then None
  else Some (sub (capacity_of opt) r).

(** One step and the whole of the running strict minimum, on the
    sequence of surpluses; [i] is the index of the head. *)
Definition min_step (i : nat) (d : option num) (acc : option nat * num)
  : option nat * num :=
  match d with
  | Some x => if lt x (snd acc) then (Some i, x) else acc
  | None => acc
  end.

Fixpoint running_min (i : nat) (ds : list (option num))
    (acc : option nat * num) : option nat * num :=
  match ds with
  | [] => acc
  | d :: ds => running_min (S i) ds (min_step i d acc)
  end.

(** How each listener rewrites one option, whatever the loop state. *)
Definition room_relabel (r : num) (opt : option_elt) : option_elt :=
  fst (Room.visit r 0 opt Room.scan0).

Definition bus_relabel (r : num) (opt : option_elt) : option_elt :=
  fst (Bus.visit r 0 opt Bus.scan0).

(** The part of each loop state that holds the running minimum. *)
Definition room_view (st : Room.scan) : option nat * num :=
  (Room.bestFitOption st, Room.smallestDifference st).

Definition bus_view (st : Bus.scan) : option nat * num :=
  (Bus.bestFit st, Bus.minWaste st).

(** Whether an option takes the "fits" branch of the loop. *)
Definition fits (r : num) (opt : option_elt) : bool :=
  match surplus_at r opt with
  | Some _ => true
  | None => false
  end.

(** The search both listeners perform, on the surpluses. *)
Definition search (r : num) (opts : list option_elt) : option nat * num :=
  running_min 0 (surplus_at r <$> opts) (None, PosInf).

(** The integers a Number holds exactly, those of magnitude up to 2^53.
    On them [parseInt] and [toString] are the code's, and so is a
    subtraction whose result is among them. *)
Definition exact (z : Z) : Prop :=
  -9007199254740992 <= z <= 9007199254740992.

(** A requirement and a list of options on which every number the loop
    computes is exact: the requirement, each capacity that is a number,
    and the difference of the two. *)
Definition exact_for (z : Z) (opts : list option_elt) : Prop :=
  exact z
  /\ forall (k : nat) opt c, opts !! k = Some opt -> value opt <> [] ->
       capacity_of opt = Fin c -> exact c /\ exact (c - z).

(** Sample pages. *)
Definition placeholder : option_elt :=
  mkOption [] None None false (lit "-- Select --").

Definition room (id name : string) (cap : string) : option_elt :=
  mkOption (lit id) (Some (lit cap)) (Some (lit name)) false (lit name).

Definition noCapacity (id name : string) : option_elt :=
  mkOption (lit id) None (Some (lit name)) false (lit name).

Definition rooms : list option_elt :=
  [placeholder; room "1" "A" "30"; room "2" "B" "50"; room "3" "C" "45"].

(** A select box one of whose rooms lacks the [data-capacity]
    attribute. *)
Definition annexRooms : list option_elt :=
  [placeholder; noCapacity "7" "Annex"; room "2" "B" "50"].

Definition banner0 : text_elt := mkText (lit "none") (lit "form-text") [].

Definition button0 : button_elt :=
  mkButton false (lit "Submit Request") (lit "btn btn-google").

Definition roomPage : Room.page := Room.mkPage rooms (Some 0%nat) banner0.

Definition busPage : Bus.page :=
  Bus.mkPage rooms (Some 0%nat) banner0 button0.

(** A page whose select box holds the placeholder only. *)
Definition emptyBusPage : Bus.page :=
  Bus.mkPage [placeholder] (Some 0%nat) banner0 button0.

(** ** The other listeners of the booking pages *)

Module Forms.

(** [a < b] on strings: code units are compared from the left, and a
    proper prefix comes first. *)
Fixpoint str_lt (a b : jsstring) : bool :=
  match a, b with
  | _, [] => false
  | [], _ :: _ => true
  | x :: a', y :: b' =>
      if (x <? y)%N then true
      else if (y <? x)%N then false
      else str_lt a' b'
  end.

(** [a <= b] on strings, evaluated as the negation of [b < a]. *)
Definition str_le (a b : jsstring) : bool := negb (str_lt b a).

(** ToBoolean on strings: only the empty string is falsy. *)
Definition nonempty (s : jsstring) : bool :=
  match s with
  | [] => false
  | _ :: _ => true
  end.

(** [s.padStart(targetLength, padString)]. *)
Definition padStart (targetLength : nat) (padString : jsstring)
    (s : jsstring) : jsstring :=
  if (targetLength <=? length s)%nat then s
  else if nonempty padString then
    let n := (targetLength - length s)%nat in
    take n (concat (replicate n padString)) ++ s
  else s.

(** The [min] date the pages compute from [new Date()]; the arguments
    are [getFullYear()], [getMonth()] (0 to 11) and [getDate()]. *)
Definition todayLocal (fullYear month date : Z) : jsstring :=
  let year := toString (Fin fullYear) in
  let mm := padStart 2 (lit "0") (toString (Fin (month + 1))) in
  let dd := padStart 2 (lit "0") (toString (Fin date)) in
  year ++ lit "-" ++ mm ++ lit "-" ++ dd.

(** The two time fields of the bus page: their values and the custom
    validity message of [endTime]. *)
Record times : Type := mkTimes {
  startTime_value : jsstring;
  endTime_value : jsstring;
  endTime_validity : jsstring
}.

Definition returnMessage : jsstring :=
  lit "Return time must be after departure time.".

(** [validateTime], the [change] listener of both time fields. *)
Definition validateTime (f : times) : times :=
  if nonempty (startTime_value f) && nonempty (endTime_value f) then
    if str_le (endTime_value f) (startTime_value f) then
      mkTimes (startTime_value f) (endTime_value f) returnMessage
    else mkTimes (startTime_value f) (endTime_value f) []
  else f.

(** Whether a class attribute carries a token, as a class selector
    tests it. *)
Definition hasClass (tok cls : jsstring) : bool :=
  bool_decide (tok ∈ parse_tokens cls [] []).

(** The time part of the room pages: the class attribute of every
    element of the page, and the [required] flags of the four named
    inputs. *)
Record timeFields : Type := mkTimeFields {
  elements : list jsstring;
  start_time_custom_required : bool;
  end_time_custom_required : bool;
  start_time_select_required : bool;
  end_time_select_required : bool
}.

(** What the [change] listener of [customTimeToggle] does to one
    element.  Both node lists, [.standard-time] and [.custom-time], are
    taken before any class is written; the standard inputs are visited
    first. *)
Definition toggle_element (checked : bool) (cls : jsstring) : jsstring :=
  let standard := hasClass (lit "standard-time") cls in
  let custom := hasClass (lit "custom-time") cls in
  if checked then
    let cls1 := if standard then classList_add (lit "d-none") cls else cls in
    if custom then classList_remove (lit "d-none") cls1 else cls1
  else
    let cls1 :=
      if standard then classList_remove (lit "d-none") cls else cls in
    if custom then classList_add (lit "d-none") cls1 else cls1.

(** The [change] listener of [customTimeToggle]; [checked] is
    [this.checked]. *)
Definition customTimeToggle_onchange (checked : bool) (f : timeFields)
  : timeFields :=
  if checked then
    mkTimeFields (toggle_element true <$> elements f) true true false false
  else
    mkTimeFields (toggle_element false <$> elements f) false false true true.

(** An input of the external-resource block: its [required] attribute
    and its value. *)
Record input_elt : Type := mkInput {
  required : bool;
  input_value : jsstring
}.

(** The priority part of the booking page.  Each element may be absent
    from the page ([getElementById] answers [null]); [resourceType] is
    given by its value and [externalFields] by its class attribute. *)
Record priority : Type := mkPriority {
  resourceType : option jsstring;
  externalFields : option jsstring;
  resourceName : option input_elt;
  resourceNumber : option input_elt
}.

(** [toggleExternalFields]. *)
Definition toggleExternalFields (p : priority) : priority :=
  match resourceType p, externalFields p with
  | Some type, Some cls =>
      if decide (type = lit "External") then
        mkPriority (resourceType p)
          (Some (classList_remove (lit "d-none") cls))
          ((fun e => mkInput true (input_value e)) <$> resourceName p)
          ((fun e => mkInput true (input_value e)) <$> resourceNumber p)
      else
        mkPriority (resourceType p)
          (Some (classList_add (lit "d-none") cls))
          ((fun _ => mkInput false []) <$> resourceName p)
          ((fun _ => mkInput false []) <$> resourceNumber p)
  | _, _ => p
  end.

End Forms.

(** ** Vocabulary of the further statements *)

(** The tokens of a class attribute. *)
Definition tokens (cls : jsstring) : list jsstring := parse_tokens cls [] [].

(** A class token as [classList] accepts it: not empty and free of ASCII
    white space. *)
Definition no_space (t : jsstring) : Prop :=
  Forall (fun c => isAsciiWhitespace c = false) t.

Definition valid_token (t : jsstring) : Prop := t <> [] /\ no_space t.

(** A token list as [parse_tokens] produces it. *)
Definition token_set (ts : list jsstring) : Prop :=
  NoDup ts /\ Forall valid_token ts.

(** A text that [parseInt] stops reading a decimal numeral at: empty, or
    starting with a code unit that is not a decimal digit. *)
Definition ends_numeral (rest : jsstring) : Prop :=
  match rest with
  | [] => True
  | c :: _ => ((c <? 48) || (57 <? c))%N = true
  end.

(** The text does not start with the letter x, in either case. *)
Definition no_hex_mark (rest : jsstring) : Prop :=
  match rest with
  | [] => True
  | c :: _ => c <> 120%N /\ c <> 88%N
  end.

(** The two prefixes [parseInt] strips, as they appear in its body. *)
Definition sign_prefix (s : jsstring) : Z * jsstring :=
  match s with
  | 45%N :: t => (-1, t)
  | 43%N :: t => (1, t)
  | _ => (1, s)
  end.

Definition radix_prefix (s : jsstring) : Z * jsstring :=
  match s with
  | 48%N :: 120%N :: t | 48%N :: 88%N :: t => (16, t)
  | _ => (10, s)
  end.

(** A time of day as a time field gives it: two digits each for the hour
    and the minute. *)
Definition hhmm (h m : Z) : jsstring :=
  Forms.padStart 2 (lit "0") (toString (Fin h)) ++ lit ":"
    ++ Forms.padStart 2 (lit "0") (toString (Fin m)).

(** ** Numbers *)

Lemma lt_irrefl a : lt a a = false.
Proof. destruct a; simpl; auto. apply Z.ltb_irrefl. Qed.

Lemma lt_trans a b c : lt a b = true -> lt b c = true -> lt a c = true.
Proof.
  destruct a, b, c; simpl; intros H1 H2; try congruence.
  apply Z.ltb_lt in H1, H2. apply Z.ltb_lt. lia.
Qed.

Lemma lt_asym a b : lt a b = true -> lt b a = false.
Proof.
  destruct a, b; simpl; intros H; try congruence.
  apply Z.ltb_lt in H. apply Z.ltb_ge. lia.
Qed.

Lemma lt_below a b c :
  lt a b = true -> lt c b = false -> c <> NaN -> lt a c = true.
Proof.
  destruct a, b, c; simpl; intros H1 H2 H3; try congruence.
  apply Z.ltb_lt in H1. apply Z.ltb_ge in H2. apply Z.ltb_lt. lia.
Qed.

Lemma lt_NaN_l b : lt NaN b = false.
Proof. reflexivity. Qed.

Lemma lt_NaN_r a : lt a NaN = false.
Proof. destruct a; reflexivity. Qed.

Lemma sub_NaN_l b : sub NaN b = NaN.
Proof. reflexivity. Qed.

Lemma parseInt_cases s : parseInt s = NaN \/ exists z, parseInt s = Fin z.
Proof.
  unfold parseInt.
  destruct (match trimStart s with
            | 45%N :: t => (-1, t)
            | 43%N :: t => (1, t)
            | _ => (1, trimStart s)
            end) as [sign s2].
  destruct (match s2 with
            | 48%N :: 120%N :: t | 48%N :: 88%N :: t => (16, t)
            | _ => (10, s2)
            end) as [R s3].
  destruct (digits R s3 None); eauto.
Qed.

Lemma or_zero_cases s :
  (parseInt s = NaN /\ or (parseInt s) (Fin 0) = Fin 0)
  \/ exists z, parseInt s = Fin z /\ or (parseInt s) (Fin 0) = Fin z.
Proof.
  destruct (parseInt_cases s) as [E | [z E]]; rewrite E.
  - left. split; reflexivity.
  - right. exists z. split; [reflexivity|].
    unfold or; simpl. destruct (Z.eqb_spec z 0); simpl; congruence.
Qed.

(** ** The running minimum *)

Lemma running_min_spec ds : forall i b s,
  (running_min i ds (b, s) = (b, s)
   /\ forall k d, ds !! k = Some (Some d) -> lt d s = false)
  \/ exists j d,
      running_min i ds (b, s) = (Some (i + j)%nat, d)
      /\ ds !! j = Some (Some d)
      /\ lt d s = true
      /\ (forall k d', ds !! k = Some (Some d') -> lt d' d = false)
      /\ (forall k d', (k < j)%nat -> ds !! k = Some (Some d') ->
            d' <> NaN -> lt d d' = true).
Proof.
  induction ds as [|x ds IH]; intros i b s.
  - left. split; [reflexivity|]. intros k d H. discriminate.
  - simpl. destruct x as [x|]; simpl.
    + destruct (lt x s) eqn:Hx.
      * right. destruct (IH (S i) (Some i) x) as [[E All] | (j & d & E & Hj & Hd & All & Early)].
        -- exists 0%nat, x. rewrite E, Nat.add_0_r. repeat split; auto.
           ++ intros [|k] d' Hk; simpl in Hk.
              ** inversion Hk; subst. apply lt_irrefl.
              ** eauto.
           ++ intros k d' Hk. lia.
        -- exists (S j), d. rewrite E. replace (i + S j)%nat with (S i + j)%nat by lia.
           repeat split; auto.
           ++ eapply lt_trans; eauto.
           ++ intros [|k] d' Hk; simpl in Hk.
              ** inversion Hk; subst. apply lt_asym; auto.
              ** eauto.
           ++ intros [|k] d' Hlt Hk Hn; simpl in Hk.
              ** inversion Hk; subst. auto.
              ** apply (Early k); auto. lia.
      * destruct (IH (S i) b s) as [[E All] | (j & d & E & Hj & Hd & All & Early)].
        -- left. split; auto.
           intros [|k] d' Hk; simpl in Hk; [inversion Hk; subst; auto | eauto].
        -- right. exists (S j), d. rewrite E. replace (i + S j)%nat with (S i + j)%nat by lia.
           repeat split; auto.
           ++ intros [|k] d' Hk; simpl in Hk.
              ** inversion Hk; subst.
                 destruct (lt d' d) eqn:Hc; auto.
                 rewrite (lt_trans _ _ _ Hc Hd) in Hx. discriminate.
              ** eauto.
           ++ intros [|k] d' Hlt Hk Hn; simpl in Hk.
              ** inversion Hk; subst. eapply lt_below; eauto.
              ** apply (Early k); auto. lia.
    + destruct (IH (S i) b s) as [[E All] | (j & d & E & Hj & Hd & All & Early)].
      * left. split; auto. intros [|k] d' Hk; simpl in Hk; [discriminate | eauto].
      * right. exists (S j), d. rewrite E. replace (i + S j)%nat with (S i + j)%nat by lia.
        repeat split; auto.
        -- intros [|k] d' Hk; simpl in Hk; [discriminate | eauto].
        -- intros [|k] d' Hlt Hk Hn; simpl in Hk; [discriminate|].
           apply (Early k); auto. lia.
Qed.

(** ** The loop over the options *)

Lemma forEach_fst {St : Type} (f : nat -> option_elt -> St -> option_elt * St)
    (g : option_elt -> option_elt) :
  (forall i opt st, fst (f i opt st) = g opt) ->
  forall opts i st, fst (forEach f i opts st) = g <$> opts.
Proof.
  intros Hf. induction opts as [|opt rest IH]; intros i st; simpl; [reflexivity|].
  specialize (Hf i opt st). destruct (f i opt st) as [opt' st']. simpl in Hf. subst.
  specialize (IH (S i) st'). destruct (forEach f (S i) rest st') as [rest' st''].
  simpl in *. f_equal. exact IH.
Qed.

Lemma forEach_snd {St : Type} (f : nat -> option_elt -> St -> option_elt * St)
    (view : St -> option nat * num) (r : num) :
  (forall i opt st,
     view (snd (f i opt st)) = min_step i (surplus_at r opt) (view st)) ->
  forall opts i st,
    view (snd (forEach f i opts st))
    = running_min i (surplus_at r <$> opts) (view st).
Proof.
  intros Hf. induction opts as [|opt rest IH]; intros i st; simpl; [reflexivity|].
  specialize (Hf i opt st). destruct (f i opt st) as [opt' st']. simpl in Hf.
  specialize (IH (S i) st'). destruct (forEach f (S i) rest st') as [rest' st''].
  simpl in *. rewrite IH, Hf. reflexivity.
Qed.

Lemma room_visit_fst r i opt st :
  fst (Room.visit r i opt st) = room_relabel r opt.
Proof.
  unfold room_relabel, Room.visit.
  destruct (decide (value opt = [])); [reflexivity|].
  destruct (lt (parseInt (str (data_capacity opt))) r); [reflexivity|].
  simpl. destruct (lt _ (Room.smallestDifference st)), (lt _ PosInf); reflexivity.
Qed.

Lemma room_visit_snd r i opt st :
  room_view (snd (Room.visit r i opt st))
  = min_step i (surplus_at r opt) (room_view st).
Proof.
  unfold Room.visit, surplus_at, capacity_of.
  destruct (decide (value opt = [])); [reflexivity|].
  destruct (lt (parseInt (str (data_capacity opt))) r); [reflexivity|].
  simpl. destruct (lt _ (Room.smallestDifference st)); reflexivity.
Qed.

Lemma bus_visit_fst r i opt st :
  fst (Bus.visit r i opt st) = bus_relabel r opt.
Proof.
  unfold bus_relabel, Bus.visit.
  destruct (decide (value opt = [])); [reflexivity|].
  destruct (gt r (parseInt (str (data_capacity opt)))); [reflexivity|].
  simpl. destruct (lt _ (Bus.minWaste st)), (lt _ PosInf); reflexivity.
Qed.

Lemma bus_visit_snd r i opt st :
  bus_view (snd (Bus.visit r i opt st))
  = min_step i (surplus_at r opt) (bus_view st).
Proof.
  unfold Bus.visit, surplus_at, capacity_of, gt.
  destruct (decide (value opt = [])); [reflexivity|].
  destruct (lt (parseInt (str (data_capacity opt))) r); [reflexivity|].
  simpl. destruct (lt _ (Bus.minWaste st)); reflexivity.
Qed.

Lemma bus_visit_valid r i opt st :
  Bus.validBusFound (snd (Bus.visit r i opt st))
  = Bus.validBusFound st || fits r opt.
Proof.
  unfold Bus.visit, fits, surplus_at, capacity_of, gt.
  destruct (decide (value opt = [])); simpl; [now rewrite orb_false_r|].
  destruct (lt (parseInt (str (data_capacity opt))) r); simpl;
    [now rewrite orb_false_r|].
  destruct (lt _ (Bus.minWaste st)); simpl; now rewrite orb_true_r.
Qed.

Lemma bus_forEach_valid r opts : forall i st,
  Bus.validBusFound (snd (forEach (Bus.visit r) i opts st))
  = Bus.validBusFound st || existsb (fits r) opts.
Proof.
  induction opts as [|opt rest IH]; intros i st; simpl; [now rewrite orb_false_r|].
  pose proof (bus_visit_valid r i opt st) as Hv.
  destruct (Bus.visit r i opt st) as [opt' st']. simpl in Hv.
  specialize (IH (S i) st').
  destruct (forEach (Bus.visit r) (S i) rest st') as [rest' st''].
  simpl in *. rewrite IH, Hv. now rewrite orb_assoc.
Qed.

Lemma room_forEach r opts :
  exists st,
    forEach (Room.visit r) 0 opts Room.scan0 = (room_relabel r <$> opts, st)
    /\ room_view st = search r opts.
Proof.
  exists (snd (forEach (Room.visit r) 0 opts Room.scan0)). split.
  - rewrite <- (forEach_fst (Room.visit r) (room_relabel r)
                  (room_visit_fst r) opts 0%nat Room.scan0).
    now destruct (forEach (Room.visit r) 0 opts Room.scan0).
  - apply (forEach_snd (Room.visit r) room_view r (room_visit_snd r)).
Qed.

Lemma bus_forEach r opts :
  exists st,
    forEach (Bus.visit r) 0 opts Bus.scan0 = (bus_relabel r <$> opts, st)
    /\ bus_view st = search r opts
    /\ Bus.validBusFound st = existsb (fits r) opts.
Proof.
  exists (snd (forEach (Bus.visit r) 0 opts Bus.scan0)). repeat split.
  - rewrite <- (forEach_fst (Bus.visit r) (bus_relabel r)
                  (bus_visit_fst r) opts 0%nat Bus.scan0).
    now destruct (forEach (Bus.visit r) 0 opts Bus.scan0).
  - apply (forEach_snd (Bus.visit r) bus_view r (bus_visit_snd r)).
  - apply bus_forEach_valid.
Qed.

Lemma room_evaluate_search r opts :
  Room.evaluate r opts
  = match search r opts with
    | (Some i, s) => BestFit i s
    | (None, _) => if gt r (Fin 0) then NoFit r else Empty
    end.
Proof.
  unfold Room.evaluate.
  destruct (room_forEach r opts) as (st & E & V). rewrite E. simpl.
  rewrite <- V. unfold room_view. now destruct (Room.bestFitOption st).
Qed.

Lemma bus_evaluate_search r opts :
  Bus.evaluate r opts
  = if gt r (Fin 0) && negb (existsb (fits r) opts) then NoFit r
    else match search r opts with
         | (Some i, s) => BestFit i s
         | (None, _) => Empty
         end.
Proof.
  unfold Bus.evaluate.
  destruct (bus_forEach r opts) as (st & E & V & B). rewrite E. simpl.
  rewrite <- V, B. unfold bus_view. now destruct (Bus.bestFit st).
Qed.

(** ** The search, in terms of the options *)

Lemma surplus_at_Some r opt d :
  surplus_at r opt = Some d <->
  value opt <> [] /\ lt (capacity_of opt) r = false
  /\ d = sub (capacity_of opt) r.
Proof.
  unfold surplus_at. destruct (decide (value opt = [])).
  - split; [discriminate | tauto].
  - destruct (lt (capacity_of opt) r).
    + split; [discriminate | intros (_ & H & _); discriminate].
    + split; [intros H; inversion H; auto | intros (_ & _ & ->); auto].
Qed.

Lemma surplus_lookup r (opts : list option_elt) (k : nat) d :
  (surplus_at r <$> opts) !! k = Some (Some d) <->
  exists opt, opts !! k = Some opt /\ surplus_at r opt = Some d.
Proof.
  rewrite list_lookup_fmap. destruct (opts !! k) as [opt|]; simpl.
  - split; [intros H; inversion H; eauto | intros (o & Ho & Hd); congruence].
  - split; [discriminate | intros (o & Ho & _); discriminate].
Qed.

Lemma capacity_cases opt :
  capacity_of opt = NaN \/ exists c, capacity_of opt = Fin c.
Proof. apply parseInt_cases. Qed.

(** Some candidate fits: the search ends on the earliest candidate of
    least capacity among those that fit. *)
Lemma search_found (z : Z) (opts : list option_elt) :
  (exists k opt c, opts !! k = Some opt /\ value opt <> []
                   /\ capacity_of opt = Fin c /\ z <= c) ->
  exists j best c,
    search (Fin z) opts = (Some j, Fin (c - z))
    /\ opts !! j = Some best /\ value best <> []
    /\ capacity_of best = Fin c /\ z <= c
    /\ forall k opt c', opts !! k = Some opt -> value opt <> [] ->
          capacity_of opt = Fin c' -> z <= c' ->
          c <= c' /\ (c' = c -> (j <= k)%nat).
Proof.
  intros (k0 & o0 & c0 & Hk0 & Hv0 & Hc0 & Hz0).
  assert (S0 : surplus_at (Fin z) o0 = Some (Fin (c0 - z))).
  { apply surplus_at_Some. rewrite Hc0. simpl. repeat split; auto.
    apply Z.ltb_ge. lia. }
  unfold search.
  destruct (running_min_spec (surplus_at (Fin z) <$> opts) 0 None PosInf)
    as [[_ All] | (j & d & E & Hj & Hd & All & Early)].
  - specialize (All k0 (Fin (c0 - z))). rewrite surplus_lookup in All.
    discriminate All. eauto.
  - apply surplus_lookup in Hj as (best & Hb & Sb).
    apply surplus_at_Some in Sb as (Hvb & Hlb & ->).
    destruct (capacity_cases best) as [Ec | [c Ec]]; rewrite Ec in *;
      [discriminate Hd|].
    simpl in Hlb. apply Z.ltb_ge in Hlb.
    exists j, best, c. rewrite E. simpl. repeat split; auto.
    + assert (S1 : surplus_at (Fin z) opt = Some (Fin (c' - z))).
      { apply surplus_at_Some. rewrite H1. simpl. repeat split; auto.
        apply Z.ltb_ge. lia. }
      specialize (All k (Fin (c' - z))). rewrite surplus_lookup in All.
      assert (A : lt (Fin (c' - z)) (Fin (c - z)) = false) by eauto.
      simpl in A. apply Z.ltb_ge in A. lia.
    + intros ->. destruct (Nat.le_gt_cases j k) as [|Hlt]; auto.
      assert (S1 : surplus_at (Fin z) opt = Some (Fin (c - z))).
      { apply surplus_at_Some. rewrite H1. simpl. repeat split; auto.
        apply Z.ltb_ge. lia. }
      assert (A : lt (Fin (c - z)) (Fin (c - z)) = true).
      { apply (Early k); [lia | | discriminate]. apply surplus_lookup. eauto. }
      rewrite lt_irrefl in A. discriminate.
Qed.

(** No candidate has a numeric surplus: the search finds nothing. *)
Lemma search_none r (opts : list option_elt) :
  (forall k opt d, opts !! k = Some opt -> surplus_at r opt = Some d ->
     lt d PosInf = false) ->
  search r opts = (None, PosInf).
Proof.
  intros H. unfold search.
  destruct (running_min_spec (surplus_at r <$> opts) 0 None PosInf)
    as [[E _] | (j & d & _ & Hj & Hd & _)]; auto.
  apply surplus_lookup in Hj as (best & Hb & Sb).
  rewrite (H _ _ _ Hb Sb) in Hd. discriminate.
Qed.

Lemma fits_true r opt :
  fits r opt = true <->
  value opt <> [] /\ lt (capacity_of opt) r = false.
Proof.
  unfold fits. destruct (surplus_at r opt) as [d|] eqn:E.
  - apply surplus_at_Some in E. tauto.
  - split; [discriminate|]. intros [H1 H2].
    assert (surplus_at r opt = Some (sub (capacity_of opt) r)) as E'
      by (apply surplus_at_Some; auto).
    congruence.
Qed.

Lemma existsb_fits r (opts : list option_elt) :
  existsb (fits r) opts = true <->
  exists (k : nat) opt, opts !! k = Some opt /\ fits r opt = true.
Proof.
  induction opts as [|o rest IH]; simpl.
  - split; [discriminate | intros (k & opt & H & _); discriminate].
  - rewrite orb_true_iff, IH. split.
    + intros [H | (k & opt & H1 & H2)]; [exists 0%nat, o | exists (S k), opt]; auto.
    + intros ([|k] & opt & H1 & H2); simpl in H1.
      * inversion H1; subst. auto.
      * right. eauto.
Qed.

(** ** The listeners, branch by branch *)

Lemma room_listener v pg :
  Room.countInput_oninput v pg
  = let r := Room.requiredSeats_of v in
    let opts := room_relabel r <$> Room.options pg in
    let rt := set_display (lit "none") (Room.recommendText pg) in
    match Room.evaluate r (Room.options pg) with
    | BestFit i _ =>
        match opts !! i with
        | Some best =>
            Room.mkPage opts (select_set_value (value best) opts)
              (set_innerHTML (Room.bestFitMessage (data_name best))
                 (set_display (lit "block") rt))
        | None => Room.mkPage opts (Room.spaceSelect pg) rt
        end
    | NoFit _ =>
        Room.mkPage opts (select_set_value [] opts)
          (set_innerHTML (Room.noFitMessage r)
             (set_className Room.dangerClass (set_display (lit "block") rt)))
    | Empty => Room.mkPage opts (Room.spaceSelect pg) rt
    end.
Proof.
  unfold Room.countInput_oninput, Room.evaluate.
  destruct (room_forEach (Room.requiredSeats_of v) (Room.options pg))
    as (st & E & _).
  rewrite E. cbv beta iota zeta. unfold snd.
  destruct (Room.bestFitOption st); [reflexivity|].
  destruct (gt (Room.requiredSeats_of v) (Fin 0)); reflexivity.
Qed.

Lemma room_options_after v pg :
  Room.options (Room.countInput_oninput v pg)
  = room_relabel (Room.requiredSeats_of v) <$> Room.options pg.
Proof.
  rewrite room_listener. cbv zeta.
  destruct (Room.evaluate _ _); [destruct (_ !! _)| |]; reflexivity.
Qed.

Lemma room_relabel_view r opt :
  candidate_view (room_relabel r opt) = candidate_view opt.
Proof.
  unfold room_relabel, Room.visit.
  destruct (decide (value opt = [])); [reflexivity|].
  destruct (lt (parseInt (str (data_capacity opt))) r); simpl; [reflexivity|].
  destruct (lt _ PosInf); reflexivity.
Qed.

Lemma room_relabel_small r opt :
  value opt <> [] -> lt (capacity_of opt) r = true ->
  disabled (room_relabel r opt) = true
  /\ textContent (room_relabel r opt)
     = tooSmallLabel (data_name opt) (capacity_of opt).
Proof.
  intros Hv Hl. unfold room_relabel, Room.visit, capacity_of in *.
  destruct (decide (value opt = [])); [contradiction|].
  rewrite Hl. split; reflexivity.
Qed.

Lemma room_relabel_fits r opt :
  value opt <> [] -> lt (capacity_of opt) r = false ->
  disabled (room_relabel r opt) = false
  /\ textContent (room_relabel r opt)
     = fitsLabel (data_name opt) (capacity_of opt).
Proof.
  intros Hv Hl. unfold room_relabel, Room.visit, capacity_of in *.
  destruct (decide (value opt = [])); [contradiction|].
  rewrite Hl. simpl. destruct (lt _ PosInf); split; reflexivity.
Qed.

Lemma select_value_cleared (opts : list option_elt) :
  select_value opts (select_set_value [] opts) = [].
Proof.
  unfold select_set_value, select_value.
  destruct (list_find (fun opt => value opt = []) opts) as [[i o]|] eqn:E;
    simpl; [|reflexivity].
  apply list_find_Some in E as (Hi & Ho & _). rewrite Hi. exact Ho.
Qed.

Lemma bus_relabel_view r opt :
  candidate_view (bus_relabel r opt) = candidate_view opt.
Proof.
  unfold bus_relabel, Bus.visit.
  destruct (decide (value opt = [])); [reflexivity|].
  destruct (gt r (parseInt (str (data_capacity opt)))); simpl; [reflexivity|].
  destruct (lt _ PosInf); reflexivity.
Qed.

Lemma bus_relabel_small r opt :
  value opt <> [] -> gt r (capacity_of opt) = true ->
  disabled (bus_relabel r opt) = true
  /\ textContent (bus_relabel r opt)
     = tooSmallLabel (data_name opt) (capacity_of opt).
Proof.
  intros Hv Hl. unfold bus_relabel, Bus.visit, capacity_of in *.
  destruct (decide (value opt = [])); [contradiction|].
  rewrite Hl. split; reflexivity.
Qed.

Lemma bus_relabel_fits r opt :
  value opt <> [] -> gt r (capacity_of opt) = false ->
  disabled (bus_relabel r opt) = false
  /\ textContent (bus_relabel r opt)
     = fitsLabel (data_name opt) (capacity_of opt).
Proof.
  intros Hv Hl. unfold bus_relabel, Bus.visit, capacity_of in *.
  destruct (decide (value opt = [])); [contradiction|].
  rewrite Hl. simpl. destruct (lt _ PosInf); split; reflexivity.
Qed.

Lemma bus_listener v pg :
  Bus.headcountInput_oninput v pg
  = let count := Bus.count_of v in
    let opts := bus_relabel count <$> Bus.options pg in
    let sg := set_className Bus.resetClass
                (set_display (lit "none") (Bus.suggestionText pg)) in
    match Bus.evaluate count (Bus.options pg) with
    | NoFit _ =>
        Bus.mkPage opts (select_set_value [] opts)
          (set_innerHTML (Bus.noFitMessage count)
             (set_className
                (classList_add (lit "text-danger") (className sg))
                (set_display (lit "block") sg)))
          (mkButton true (lit "Cannot Book: Too many passengers")
             (classList_remove (lit "btn-google")
                (classList_add (lit "btn-secondary")
                   (btn_className (Bus.submitBtn pg)))))
    | BestFit i _ =>
        match opts !! i with
        | Some best =>
            Bus.mkPage opts (select_set_value (value best) opts)
              (set_innerHTML (Bus.bestFitMessage (data_name best) count)
                 (set_className
                    (classList_add (lit "text-success") (className sg))
                    (set_display (lit "block") sg)))
              (mkButton false (lit "Submit Request")
                 (classList_add (lit "btn-google")
                    (classList_remove (lit "btn-secondary")
                       (btn_className (Bus.submitBtn pg)))))
        | None => Bus.mkPage opts (Bus.busSelect pg) sg (Bus.submitBtn pg)
        end
    | Empty => Bus.mkPage opts (Bus.busSelect pg) sg (Bus.submitBtn pg)
    end.
Proof.
  unfold Bus.headcountInput_oninput, Bus.evaluate.
  destruct (bus_forEach (Bus.count_of v) (Bus.options pg)) as (st & E & _).
  rewrite E. cbv beta iota zeta. unfold snd.
  destruct (gt (Bus.count_of v) (Fin 0) && negb (Bus.validBusFound st));
    [reflexivity|].
  destruct (Bus.bestFit st); reflexivity.
Qed.

Lemma bus_options_after v pg :
  Bus.options (Bus.headcountInput_oninput v pg)
  = bus_relabel (Bus.count_of v) <$> Bus.options pg.
Proof.
  rewrite bus_listener. cbv zeta.
  destruct (Bus.evaluate _ _); [destruct (_ !! _)| |]; reflexivity.
Qed.

(** The index a search returns is an index of the list. *)
Lemma search_lookup r (opts : list option_elt) (j : nat) s :
  search r opts = (Some j, s) ->
  exists best, opts !! j = Some best /\ surplus_at r best = Some s
               /\ lt s PosInf = true.
Proof.
  unfold search. intros E.
  destruct (running_min_spec (surplus_at r <$> opts) 0 None PosInf)
    as [[E' _] | (j' & d & E' & Hj & Hd & _)]; rewrite E' in E.
  - discriminate.
  - inversion E; subst. apply surplus_lookup in Hj as (best & Hb & Sb).
    eauto.
Qed.

(** [forEach_bestFit_lookup]: the reference kept by either loop points
    into the list of options. *)
Lemma forEach_bestFit_lookup r (opts : list option_elt) (j : nat) s :
  Room.evaluate r opts = BestFit j s \/ Bus.evaluate r opts = BestFit j s ->
  exists best, opts !! j = Some best /\ value best <> []
               /\ s = sub (capacity_of best) r.
Proof.
  rewrite room_evaluate_search, bus_evaluate_search.
  destruct (search r opts) as [[i|] s'] eqn:E.
  - intros [H | H].
    + inversion H; subst.
      destruct (search_lookup _ _ _ _ E) as (best & Hb & Sb & _).
      apply surplus_at_Some in Sb as (? & ? & ?). eauto.
    + destruct (gt r (Fin 0) && negb (existsb (fits r) opts));
        [discriminate|].
      inversion H; subst.
      destruct (search_lookup _ _ _ _ E) as (best & Hb & Sb & _).
      apply surplus_at_Some in Sb as (? & ? & ?). eauto.
  - intros [H | H].
    + destruct (gt r (Fin 0)); discriminate.
    + destruct (gt r (Fin 0) && negb (existsb (fits r) opts)); discriminate.
Qed.

(** ** What an evaluation depends on *)

Lemma surplus_at_view r o1 o2 :
  candidate_view o1 = candidate_view o2 -> surplus_at r o1 = surplus_at r o2.
Proof.
  unfold candidate_view, surplus_at, capacity_of.
  intros H. inversion H as [[H1 H2 H3]]. rewrite H1, H2. reflexivity.
Qed.

Lemma surpluses_view r (opts1 : list option_elt) : forall opts2,
  candidate_view <$> opts1 = candidate_view <$> opts2 ->
  surplus_at r <$> opts1 = surplus_at r <$> opts2.
Proof.
  induction opts1 as [|o1 rest IH]; intros [|o2 rest2] H; simpl in H;
    try discriminate; [reflexivity|].
  inversion H as [[Hv Hc Hn Hrest]]. simpl. f_equal.
  - apply surplus_at_view. unfold candidate_view. congruence.
  - apply IH. exact Hrest.
Qed.

Lemma existsb_fits_surpluses r (opts : list option_elt) :
  existsb (fits r) opts
  = existsb (fun d => match d with Some _ => true | None => false end)
      (surplus_at r <$> opts).
Proof.
  induction opts as [|o rest IH]; simpl; [reflexivity|].
  rewrite IH. reflexivity.
Qed.

Lemma evaluate_view r (opts1 opts2 : list option_elt) :
  candidate_view <$> opts1 = candidate_view <$> opts2 ->
  Room.evaluate r opts1 = Room.evaluate r opts2
  /\ Bus.evaluate r opts1 = Bus.evaluate r opts2.
Proof.
  intros H. apply (surpluses_view r) in H.
  rewrite !room_evaluate_search, !bus_evaluate_search.
  rewrite !existsb_fits_surpluses. unfold search. rewrite H. auto.
Qed.

Lemma room_step_view v pg :
  candidate_view <$> Room.options (Room.countInput_oninput v pg)
  = candidate_view <$> Room.options pg.
Proof.
  rewrite room_options_after, <- list_fmap_compose.
  apply list_fmap_ext. intros i o _. apply room_relabel_view.
Qed.

Lemma room_run_view hist : forall pg,
  candidate_view <$> Room.options (Room.run hist pg)
  = candidate_view <$> Room.options pg.
Proof.
  induction hist as [|v hist IH]; intros pg; [reflexivity|].
  unfold Room.run in *. simpl. rewrite IH. apply room_step_view.
Qed.

Lemma bus_step_view v pg :
  candidate_view <$> Bus.options (Bus.headcountInput_oninput v pg)
  = candidate_view <$> Bus.options pg.
Proof.
  rewrite bus_options_after, <- list_fmap_compose.
  apply list_fmap_ext. intros i o _. apply bus_relabel_view.
Qed.

Lemma bus_run_view hist : forall pg,
  candidate_view <$> Bus.options (Bus.run hist pg)
  = candidate_view <$> Bus.options pg.
Proof.
  induction hist as [|v hist IH]; intros pg; [reflexivity|].
  unfold Bus.run in *. simpl. rewrite IH. apply bus_step_view.
Qed.

Lemma room_relabel_idem r opt :
  room_relabel r (room_relabel r opt) = room_relabel r opt.
Proof.
  unfold room_relabel, Room.visit.
  destruct (decide (value opt = [])) as [e|n]; simpl.
  - destruct (decide (value opt = [])); [reflexivity | contradiction].
  - destruct (lt (parseInt (str (data_capacity opt))) r) eqn:L; simpl.
    + destruct (decide (value opt = [])); [contradiction|].
      simpl. rewrite L. reflexivity.
    + destruct (lt _ PosInf); simpl;
        (destruct (decide (value opt = [])); [contradiction|]);
        simpl; rewrite L; simpl; destruct (lt _ PosInf); reflexivity.
Qed.

Lemma select_set_value_view v (opts1 : list option_elt) : forall opts2,
  candidate_view <$> opts1 = candidate_view <$> opts2 ->
  select_set_value v opts1 = select_set_value v opts2.
Proof.
  unfold select_set_value.
  induction opts1 as [|o1 rest IH]; intros [|o2 rest2] H; simpl in H;
    try discriminate; [reflexivity|].
  inversion H as [[Hv Hc Hn Hrest]]. simpl. rewrite Hv.
  destruct (decide (value o2 = v)); [reflexivity|].
  specialize (IH rest2 Hrest).
  destruct (list_find _ rest) as [[i x]|], (list_find _ rest2) as [[i' x']|];
    simpl in *; congruence.
Qed.

Lemma room_listener_idem v pg :
  Room.countInput_oninput v (Room.countInput_oninput v pg)
  = Room.countInput_oninput v pg.
Proof.
  rewrite (room_listener v (Room.countInput_oninput v pg)). cbv zeta.
  destruct (evaluate_view (Room.requiredSeats_of v) _ _ (room_step_view v pg))
    as [-> _].
  rewrite room_options_after.
  assert (M : forall opts : list option_elt,
             room_relabel (Room.requiredSeats_of v)
               <$> (room_relabel (Room.requiredSeats_of v) <$> opts)
             = room_relabel (Room.requiredSeats_of v) <$> opts).
  { intros opts. rewrite <- list_fmap_compose. apply list_fmap_ext.
    intros i o _. apply room_relabel_idem. }
  rewrite M. rewrite (room_listener v pg). cbv zeta.
  destruct (Room.recommendText pg) as [d c h].
  destruct (Room.evaluate (Room.requiredSeats_of v) (Room.options pg));
    [destruct (_ !! _)| |]; reflexivity.
Qed.

(** ** The class of the banner *)

Lemma room_class_step v pg :
  className (Room.recommendText (Room.countInput_oninput v pg))
  = match Room.evaluate (Room.requiredSeats_of v) (Room.options pg) with
    | NoFit _ => Room.dangerClass
    | _ => className (Room.recommendText pg)
    end.
Proof.
  rewrite room_listener. cbv zeta.
  destruct (Room.evaluate _ _); [destruct (_ !! _)| |]; reflexivity.
Qed.

Lemma room_class_sticky hist : forall pg,
  className (Room.recommendText pg) = Room.dangerClass ->
  className (Room.recommendText (Room.run hist pg)) = Room.dangerClass.
Proof.
  induction hist as [|v hist IH]; intros pg H; [exact H|].
  unfold Room.run in *. simpl. apply IH. rewrite room_class_step.
  destruct (Room.evaluate _ _); auto.
Qed.

Lemma room_run_app h1 h2 pg :
  Room.run (h1 ++ h2) pg = Room.run h2 (Room.run h1 pg).
Proof. unfold Room.run. apply foldl_app. Qed.

(** ** The examples of the specification *)

Example evaluate_rooms_40 : Room.evaluate (Fin 40) rooms = BestFit 3 (Fin 5).
Proof. reflexivity. Qed.

Example evaluate_tie :
  Room.evaluate (Fin 30) [room "1" "A" "30"; room "2" "B" "30"]
  = BestFit 0 (Fin 0).
Proof. reflexivity. Qed.

Example evaluate_too_small :
  Room.evaluate (Fin 40) [room "1" "A" "30"] = NoFit (Fin 40).
Proof. reflexivity. Qed.

(** ** The claims *)

(** C1. For a requirement [r > 0] and options of which at least one
    candidate has a capacity of at least [r], both listeners take the
    best-fit branch, for a candidate that fits and whose surplus
    [capacity - r] is the least among the candidates that fit; among
    candidates of that least surplus the earliest-listed one is chosen. *)
Theorem C1_best_fit_minimal_surplus (r : Z) (opts : list option_elt) :
  0 < r ->
  (exists (k : nat) opt c,
     opts !! k = Some opt /\ value opt <> []
     /\ capacity_of opt = Fin c /\ r <= c) ->
  exists (j : nat) best c,
    Room.evaluate (Fin r) opts = BestFit j (Fin (c - r))
    /\ Bus.evaluate (Fin r) opts = BestFit j (Fin (c - r))
    /\ opts !! j = Some best /\ value best <> []
    /\ capacity_of best = Fin c /\ r <= c
    /\ forall (k : nat) opt c',
         opts !! k = Some opt -> value opt <> [] ->
         capacity_of opt = Fin c' -> r <= c' ->
         c - r <= c' - r /\ (c' - r = c - r -> (j <= k)%nat).
Proof.
  intros Hr Hex.
  destruct (search_found r opts Hex)
    as (j & best & c & E & Hj & Hv & Hc & Hle & Hmin).
  exists j, best, c.
  rewrite room_evaluate_search, bus_evaluate_search, E.
  assert (V : existsb (fits (Fin r)) opts = true).
  { apply existsb_fits. exists j, best. split; auto.
    apply fits_true. split; auto. rewrite Hc. simpl. apply Z.ltb_ge. lia. }
  rewrite V, andb_false_r. repeat split; auto.
  - destruct (Hmin k opt c' H H0 H1 H2). lia.
  - intros Heq. destruct (Hmin k opt c' H H0 H1 H2) as [_ Ht]. apply Ht. lia.
Qed.

Lemma C1_witness :
  0 < 40
  /\ exists (j : nat) best c,
      Room.evaluate (Fin 40) rooms = BestFit j (Fin (c - 40))
      /\ Bus.evaluate (Fin 40) rooms = BestFit j (Fin (c - 40))
      /\ rooms !! j = Some best /\ value best <> []
      /\ capacity_of best = Fin c /\ 40 <= c
      /\ forall (k : nat) opt c',
           rooms !! k = Some opt -> value opt <> [] ->
           capacity_of opt = Fin c' -> 40 <= c' ->
           c - 40 <= c' - 40 /\ (c' - 40 = c - 40 -> (j <= k)%nat).
Proof.
  split; [lia|].
  apply (C1_best_fit_minimal_surplus 40 rooms); [lia|].
  exists 2%nat, (room "2" "B" "50"), 50.
  repeat split; [discriminate | lia].
Defined.

(** C2, as stated, fails: with a requirement of 0 and rooms on the page,
    the room listener takes the best-fit branch for the smallest room,
    selects it and shows the banner (and so does the bus listener). *)
Lemma C2_counterexample :
  Room.requiredSeats_of (lit "0") = Fin 0
  /\ Room.evaluate (Fin 0) (Room.options roomPage) = BestFit 1 (Fin 30)
  /\ Room.evaluate (Fin 0) (Room.options roomPage) <> Empty
  /\ Room.spaceSelect (Room.countInput_oninput (lit "0") roomPage)
     = Some 1%nat
  /\ display (Room.recommendText (Room.countInput_oninput (lit "0") roomPage))
     = lit "block"
  /\ Bus.evaluate (Fin 0) (Bus.options busPage) = BestFit 1 (Fin 30).
Proof. vm_compute. repeat split; congruence. Qed.

(** C2, amended.  With a requirement of 0 no candidate is disabled unless
    its capacity is a negative number.  The outcome is [Empty] -- banner
    hidden, selection and banner text untouched -- when no candidate has
    a numeric capacity of at least 0 (for instance when there is no
    candidate); otherwise it is [BestFit] for the earliest candidate of
    least capacity, which is selected and announced in the banner. *)
Theorem C2_zero_requirement (v : jsstring) (pg : Room.page) :
  Room.requiredSeats_of v = Fin 0 ->
  let pg' := Room.countInput_oninput v pg in
  (forall (k : nat) opt,
     Room.options pg !! k = Some opt -> value opt <> [] ->
     lt (capacity_of opt) (Fin 0) = false ->
     exists opt', Room.options pg' !! k = Some opt' /\ disabled opt' = false)
  /\ ((forall (k : nat) opt c,
         Room.options pg !! k = Some opt -> value opt <> [] ->
         capacity_of opt = Fin c -> c < 0) ->
      Room.evaluate (Fin 0) (Room.options pg) = Empty
      /\ Bus.evaluate (Fin 0) (Room.options pg) = Empty
      /\ Room.spaceSelect pg' = Room.spaceSelect pg
      /\ Room.recommendText pg'
         = set_display (lit "none") (Room.recommendText pg))
  /\ ((exists (k : nat) opt c,
         Room.options pg !! k = Some opt /\ value opt <> []
         /\ capacity_of opt = Fin c /\ 0 <= c) ->
      exists (j : nat) best c,
        Room.evaluate (Fin 0) (Room.options pg) = BestFit j (Fin c)
        /\ Bus.evaluate (Fin 0) (Room.options pg) = BestFit j (Fin c)
        /\ Room.options pg !! j = Some best /\ value best <> []
        /\ capacity_of best = Fin c
        /\ (forall (k : nat) opt c',
              Room.options pg !! k = Some opt -> value opt <> [] ->
              capacity_of opt = Fin c' -> 0 <= c' ->
              c <= c' /\ (c' = c -> (j <= k)%nat))
        /\ Room.spaceSelect pg'
           = select_set_value (value best) (Room.options pg')
        /\ display (Room.recommendText pg') = lit "block"
        /\ innerHTML (Room.recommendText pg')
           = Room.bestFitMessage (data_name best)).
Proof.
  intros Hv pg'. split; [|split].
  - intros k opt Hk Hval Hl. subst pg'. rewrite room_options_after, Hv.
    rewrite list_lookup_fmap, Hk. simpl. eexists. split; [reflexivity|].
    apply room_relabel_fits; auto.
  - intros Hneg.
    assert (S0 : search (Fin 0) (Room.options pg) = (None, PosInf)).
    { apply search_none. intros k opt d Hk Hs.
      apply surplus_at_Some in Hs as (Hval & Hl & ->).
      destruct (capacity_cases opt) as [E | [c E]]; rewrite E in *;
        [reflexivity|].
      specialize (Hneg k opt c Hk Hval E). simpl in Hl.
      apply Z.ltb_ge in Hl. lia. }
    assert (E0 : Room.evaluate (Fin 0) (Room.options pg) = Empty).
    { rewrite room_evaluate_search, S0. reflexivity. }
    repeat split; auto.
    + rewrite bus_evaluate_search, S0. reflexivity.
    + subst pg'. rewrite room_listener. cbv zeta. rewrite Hv, E0. reflexivity.
    + subst pg'. rewrite room_listener. cbv zeta. rewrite Hv, E0. reflexivity.
  - intros Hex.
    destruct (search_found 0 (Room.options pg) Hex)
      as (j & best & c & E & Hj & Hval & Hc & Hle & Hmin).
    replace (c - 0) with c in E by lia.
    assert (E0 : Room.evaluate (Fin 0) (Room.options pg) = BestFit j (Fin c)).
    { rewrite room_evaluate_search, E. reflexivity. }
    exists j, best, c. repeat split; auto.
    + rewrite bus_evaluate_search, E. reflexivity.
    + apply (Hmin k opt c'); auto.
    + apply (Hmin k opt c'); auto.
    + subst pg'. rewrite room_listener. cbv zeta. rewrite Hv, E0.
      rewrite list_lookup_fmap, Hj. simpl.
      pose proof (room_relabel_view (Fin 0) best) as Hview.
      unfold candidate_view in Hview. inversion Hview as [[H1 H2 H3]].
      rewrite H1. reflexivity.
    + subst pg'. rewrite room_listener. cbv zeta. rewrite Hv, E0.
      rewrite list_lookup_fmap, Hj. reflexivity.
    + subst pg'. rewrite room_listener. cbv zeta. rewrite Hv, E0.
      rewrite list_lookup_fmap, Hj. simpl.
      pose proof (room_relabel_view (Fin 0) best) as Hview.
      unfold candidate_view in Hview. inversion Hview as [[H1 H2 H3]].
      rewrite H3. reflexivity.
Qed.

Lemma C2_witness :
  Room.requiredSeats_of (lit "0") = Fin 0
  /\ exists (j : nat) best c,
      Room.evaluate (Fin 0) rooms = BestFit j (Fin c)
      /\ rooms !! j = Some best
      /\ display (Room.recommendText
                    (Room.countInput_oninput (lit "0") roomPage))
         = lit "block".
Proof.
  split; [reflexivity|].
  destruct (C2_zero_requirement (lit "0") roomPage eq_refl) as (_ & _ & H).
  destruct H as (j & best & c & H1 & _ & H3 & _ & _ & _ & _ & H8 & _).
  - exists 1%nat, (room "1" "A" "30"), 30.
    repeat split; [discriminate | lia].
  - exists j, best, c. auto.
Defined.

(** C3. For a requirement [r > 0] and options (possibly none) every
    candidate of which has a capacity below [r], the outcome is [NoFit]
    carrying [r]; the room listener leaves the select box with the empty
    value and shows the banner, in danger styling, with the diagnostic
    that names [r]. *)
Theorem C3_no_fit (v : jsstring) (r : Z) (pg : Room.page) :
  Room.requiredSeats_of v = Fin r -> 0 < r ->
  (forall (k : nat) opt,
     Room.options pg !! k = Some opt -> value opt <> [] ->
     lt (capacity_of opt) (Fin r) = true) ->
  let pg' := Room.countInput_oninput v pg in
  Room.evaluate (Fin r) (Room.options pg) = NoFit (Fin r)
  /\ Bus.evaluate (Fin r) (Room.options pg) = NoFit (Fin r)
  /\ select_value (Room.options pg') (Room.spaceSelect pg') = []
  /\ display (Room.recommendText pg') = lit "block"
  /\ className (Room.recommendText pg') = Room.dangerClass
  /\ innerHTML (Room.recommendText pg')
     = lit "<i class=" ++ dq ++ lit "bi bi-exclamation-circle me-1" ++ dq
       ++ lit "></i> No single room can hold " ++ toString (Fin r)
       ++ lit " students.".
Proof.
  intros Hv Hr Hall pg'.
  assert (S0 : search (Fin r) (Room.options pg) = (None, PosInf)).
  { apply search_none. intros k opt d Hk Hs.
    apply surplus_at_Some in Hs as (Hval & Hl & _).
    rewrite (Hall k opt Hk Hval) in Hl. discriminate. }
  assert (G : gt (Fin r) (Fin 0) = true) by (apply Z.ltb_lt; lia).
  assert (E0 : Room.evaluate (Fin r) (Room.options pg) = NoFit (Fin r)).
  { rewrite room_evaluate_search, S0, G. reflexivity. }
  assert (V : existsb (fits (Fin r)) (Room.options pg) = false).
  { apply not_true_is_false. intros Hx.
    apply existsb_fits in Hx as (k & opt & Hk & Hf).
    apply fits_true in Hf as [Hval Hl].
    rewrite (Hall k opt Hk Hval) in Hl. discriminate. }
  split; [exact E0|]. split.
  { rewrite bus_evaluate_search, V, G. reflexivity. }
  subst pg'. rewrite room_listener. cbv zeta. rewrite Hv, E0.
  cbn [Room.options Room.spaceSelect Room.recommendText].
  split; [apply select_value_cleared|]. repeat split.
Qed.

Lemma C3_witness :
  Room.requiredSeats_of (lit "40") = Fin 40
  /\ 0 < 40
  /\ Room.evaluate (Fin 40) [placeholder; room "1" "A" "30"] = NoFit (Fin 40)
  /\ select_value
       (Room.options
          (Room.countInput_oninput (lit "40")
             (Room.mkPage [placeholder; room "1" "A" "30"] (Some 1%nat)
                banner0)))
       (Room.spaceSelect
          (Room.countInput_oninput (lit "40")
             (Room.mkPage [placeholder; room "1" "A" "30"] (Some 1%nat)
                banner0)))
     = [].
Proof.
  split; [reflexivity|]. split; [lia|].
  destruct (C3_no_fit (lit "40") 40
              (Room.mkPage [placeholder; room "1" "A" "30"] (Some 1%nat)
                 banner0) eq_refl) as (H1 & _ & H3 & _).
  - lia.
  - intros [|[|k]] opt Hk Hval; simpl in Hk; inversion Hk; subst.
    + contradiction Hval. reflexivity.
    + reflexivity.
  - split; assumption.
Defined.

(** C4, as stated, fails: a room whose [data-capacity] is missing has a
    capacity that is neither below the requirement nor at least the
    requirement, yet the listener enables it and relabels it as a room
    that fits.  The options are not split by [capacity >= requiredCount]. *)
Lemma C4_counterexample :
  Room.requiredSeats_of (lit "40") = Fin 40
  /\ annexRooms !! 1%nat = Some (noCapacity "7" "Annex")
  /\ capacity_of (noCapacity "7" "Annex") = NaN
  /\ lt (capacity_of (noCapacity "7" "Annex")) (Fin 40) = false
  /\ ge (capacity_of (noCapacity "7" "Annex")) (Fin 40) = false
  /\ exists opt',
       Room.options
         (Room.countInput_oninput (lit "40")
            (Room.mkPage annexRooms (Some 0%nat) banner0)) !! 1%nat
       = Some opt'
       /\ disabled opt' = false
       /\ textContent opt' = lit "Annex (Capacity: NaN)".
Proof.
  repeat split. eexists. repeat split.
Qed.

(** C4, amended.  On every evaluation by the room listener each
    candidate falls on exactly one side of the test
    [capacity < requiredCount]: when it holds the candidate is disabled
    and relabelled with the "too small" marker, its name and its
    capacity; when it does not hold the candidate is enabled and
    relabelled with its name and its capacity.  For a capacity that is a
    number, not holding is the same as [capacity >= requiredCount]; a
    capacity that is not a number satisfies neither comparison and is
    treated as fitting.  What an evaluation reads of the option is
    kept. *)
Theorem C4_partition (v : jsstring) (pg : Room.page) (k : nat)
    (opt : option_elt) :
  Room.options pg !! k = Some opt -> value opt <> [] ->
  let r := Room.requiredSeats_of v in
  let capacity := capacity_of opt in
  exists opt',
    Room.options (Room.countInput_oninput v pg) !! k = Some opt'
    /\ candidate_view opt' = candidate_view opt
    /\ ((lt capacity r = true
         /\ disabled opt' = true
         /\ textContent opt'
            = [10060%N] ++ lit " " ++ str (data_name opt) ++ lit " (Cap: "
              ++ toString capacity ++ lit ") - Too Small")
        \/ (lt capacity r = false
            /\ disabled opt' = false
            /\ textContent opt'
               = str (data_name opt) ++ lit " (Capacity: "
                 ++ toString capacity ++ lit ")"))
    /\ (capacity <> NaN -> (lt capacity r = false <-> ge capacity r = true))
    /\ (capacity = NaN -> lt capacity r = false /\ ge capacity r = false).
Proof.
  intros Hk Hval r capacity.
  exists (room_relabel r opt). rewrite room_options_after.
  rewrite list_lookup_fmap, Hk. split; [reflexivity|].
  split; [apply room_relabel_view|].
  assert (Hr : exists z, r = Fin z).
  { subst r. unfold Room.requiredSeats_of.
    destruct (or_zero_cases v) as [[_ E] | (z & _ & E)]; eauto. }
  destruct Hr as [z Hz]. rewrite Hz. split; [|split].
  - destruct (lt capacity (Fin z)) eqn:Hl.
    + left. destruct (room_relabel_small (Fin z) opt Hval Hl) as [D T].
      repeat split; auto.
    + right. destruct (room_relabel_fits (Fin z) opt Hval Hl) as [D T].
      repeat split; auto.
  - intros Hn. destruct (capacity_cases opt) as [E | [c E]];
      [contradiction|].
    subst capacity. rewrite E. simpl. destruct (c <? z); simpl; split; auto.
  - intros ->. split; reflexivity.
Qed.

Lemma C4_witness :
  exists opt',
    Room.options (Room.countInput_oninput (lit "40") roomPage) !! 1%nat
    = Some opt'
    /\ disabled opt' = true
    /\ textContent opt' = [10060%N] ++ lit " A (Cap: 30) - Too Small".
Proof.
  destruct (C4_partition (lit "40") roomPage 1 (room "1" "A" "30"))
    as (opt' & Hk & _ & [(_ & D & T) | (L & _)] & _).
  - reflexivity.
  - discriminate.
  - exists opt'. repeat split; assumption.
  - discriminate L.
Defined.

(** C5, as stated, fails: on a bus page with no vehicle to choose,
    typing 5 disables the submit button ([NoFit]); clearing the field
    then gives [Empty], and the button is still disabled and still
    relabelled. *)
Lemma C5_counterexample :
  Bus.evaluate (Bus.count_of (lit "5")) (Bus.options emptyBusPage)
  = NoFit (Fin 5)
  /\ Bus.evaluate (Bus.count_of [])
       (Bus.options (Bus.run [lit "5"] emptyBusPage)) = Empty
  /\ btn_disabled (Bus.submitBtn emptyBusPage) = false
  /\ btn_disabled (Bus.submitBtn (Bus.run [lit "5"; []] emptyBusPage)) = true
  /\ btn_textContent (Bus.submitBtn (Bus.run [lit "5"; []] emptyBusPage))
     = lit "Cannot Book: Too many passengers".
Proof. vm_compute. repeat split. Qed.

(** C5, amended.  After every evaluation by the bus listener: on
    [NoFit] the submit button is disabled and relabelled; on [BestFit]
    it is enabled and labelled "Submit Request"; on [Empty] -- neither
    branch taken -- the button is left exactly as it was.  So it is
    never enabled after [NoFit] and never disabled after [BestFit].  A
    requirement (0 included) re-enables the button through the best-fit
    branch, that is, when some candidate has a numeric capacity of at
    least the requirement; when the requirement is not positive and no
    candidate has such a capacity, the outcome is [Empty] and the button
    keeps its earlier state. *)
Theorem C5_submission_gate (v : jsstring) (pg : Bus.page) :
  let pg' := Bus.headcountInput_oninput v pg in
  match Bus.evaluate (Bus.count_of v) (Bus.options pg) with
  | NoFit _ =>
      btn_disabled (Bus.submitBtn pg') = true
      /\ btn_textContent (Bus.submitBtn pg')
         = lit "Cannot Book: Too many passengers"
  | BestFit _ _ =>
      btn_disabled (Bus.submitBtn pg') = false
      /\ btn_textContent (Bus.submitBtn pg') = lit "Submit Request"
  | Empty => Bus.submitBtn pg' = Bus.submitBtn pg
  end
  /\ (forall r : Z,
       Bus.count_of v = Fin r ->
       (exists (k : nat) opt c,
          Bus.options pg !! k = Some opt /\ value opt <> []
          /\ capacity_of opt = Fin c /\ r <= c) ->
       (exists j s,
          Bus.evaluate (Bus.count_of v) (Bus.options pg) = BestFit j s)
       /\ btn_disabled (Bus.submitBtn pg') = false)
  /\ forall r : Z,
       Bus.count_of v = Fin r -> r <= 0 ->
       (forall (k : nat) opt c,
          Bus.options pg !! k = Some opt -> value opt <> [] ->
          capacity_of opt = Fin c -> c < r) ->
       Bus.evaluate (Bus.count_of v) (Bus.options pg) = Empty
       /\ Bus.submitBtn pg' = Bus.submitBtn pg.
Proof.
  intros pg'.
  assert (Gate :
    match Bus.evaluate (Bus.count_of v) (Bus.options pg) with
    | NoFit _ =>
        btn_disabled (Bus.submitBtn pg') = true
        /\ btn_textContent (Bus.submitBtn pg')
           = lit "Cannot Book: Too many passengers"
    | BestFit _ _ =>
        btn_disabled (Bus.submitBtn pg') = false
        /\ btn_textContent (Bus.submitBtn pg') = lit "Submit Request"
    | Empty => Bus.submitBtn pg' = Bus.submitBtn pg
    end).
  { subst pg'. rewrite bus_listener. cbv zeta.
    destruct (Bus.evaluate (Bus.count_of v) (Bus.options pg))
      as [j s| |] eqn:E.
    - destruct (forEach_bestFit_lookup _ _ _ _ (or_intror E))
        as (best & Hb & _).
      rewrite list_lookup_fmap, Hb. simpl. split; reflexivity.
    - split; reflexivity.
    - reflexivity. }
  split; [exact Gate|]. split.
  - intros r Hr Hex.
    destruct (search_found r (Bus.options pg) Hex)
      as (j & best & c & E & Hj & Hval & Hc & Hle & _).
    assert (V : existsb (fits (Fin r)) (Bus.options pg) = true).
    { apply existsb_fits. exists j, best. split; auto.
      apply fits_true. split; auto. rewrite Hc. simpl. apply Z.ltb_ge. lia. }
    assert (Ev : Bus.evaluate (Bus.count_of v) (Bus.options pg)
                 = BestFit j (Fin (c - r))).
    { rewrite Hr, bus_evaluate_search, E, V, andb_false_r. reflexivity. }
    rewrite Ev in Gate. split; [eauto | apply Gate].
  - intros r Hr Hle Hnone.
    assert (S0 : search (Fin r) (Bus.options pg) = (None, PosInf)).
    { apply search_none. intros k opt d Hk Hs.
      apply surplus_at_Some in Hs as (Hval & Hl & ->).
      destruct (capacity_cases opt) as [E | [c E]]; rewrite E in *;
        [reflexivity|].
      specialize (Hnone k opt c Hk Hval E). simpl in Hl.
      apply Z.ltb_ge in Hl. lia. }
    assert (Ev : Bus.evaluate (Bus.count_of v) (Bus.options pg) = Empty).
    { rewrite Hr, bus_evaluate_search, S0.
      change (gt (Fin r) (Fin 0)) with (0 <? r).
      destruct (Z.ltb_spec 0 r); [lia | reflexivity]. }
    rewrite Ev in Gate. split; [exact Ev | exact Gate].
Qed.

Lemma C5_witness :
  Bus.count_of [] = Fin 0
  /\ btn_disabled
       (Bus.submitBtn
          (Bus.headcountInput_oninput []
             (Bus.headcountInput_oninput (lit "60") busPage))) = false.
Proof.
  split; [reflexivity|].
  destruct (C5_submission_gate []
              (Bus.headcountInput_oninput (lit "60") busPage))
    as (_ & H & _).
  destruct (H 0 eq_refl) as [_ D]; [|exact D].
  exists 1%nat, (bus_relabel (Fin 60) (room "1" "A" "30")), 30.
  repeat split; [discriminate | lia].
Defined.

(** C6, as stated, fails in its last part: a non-numeric input is read as
    a requirement of 0, but with rooms on the page the evaluation then
    takes the best-fit branch, not the [Empty] one. *)
Lemma C6_counterexample :
  parseInt (lit "abc") = NaN
  /\ Room.requiredSeats_of (lit "abc") = Fin 0
  /\ Room.evaluate (Room.requiredSeats_of (lit "abc")) rooms
     = BestFit 1 (Fin 30)
  /\ Room.evaluate (Room.requiredSeats_of (lit "abc")) rooms <> Empty
  /\ display (Room.recommendText (Room.countInput_oninput (lit "abc") roomPage))
     = lit "block".
Proof. vm_compute. repeat split; congruence. Qed.

(** C6, amended.  An input that [parseInt] reads as [NaN] (non-numeric
    or empty text) is a requirement of 0 for both listeners, and each
    listener then does exactly what it does for the input "0": the
    outcome is that of a requirement of 0, which is [Empty] when no
    candidate has a numeric capacity of at least 0, and otherwise
    [BestFit] for the earliest candidate of least capacity. *)
Theorem C6_non_numeric_input (v : jsstring) :
  parseInt v = NaN ->
  Room.requiredSeats_of v = Fin 0
  /\ Bus.count_of v = Fin 0
  /\ (forall pg,
        Room.countInput_oninput v pg = Room.countInput_oninput (lit "0") pg)
  /\ (forall pg,
        Bus.headcountInput_oninput v pg
        = Bus.headcountInput_oninput (lit "0") pg)
  /\ (forall opts : list option_elt,
        Room.evaluate (Room.requiredSeats_of v) opts
        = Room.evaluate (Fin 0) opts)
  /\ (forall opts : list option_elt,
        (forall (k : nat) opt c, opts !! k = Some opt -> value opt <> [] ->
           capacity_of opt = Fin c -> c < 0) ->
        Room.evaluate (Room.requiredSeats_of v) opts = Empty)
  /\ (forall opts : list option_elt,
        (exists (k : nat) opt c, opts !! k = Some opt /\ value opt <> []
           /\ capacity_of opt = Fin c /\ 0 <= c) ->
        exists (j : nat) best c,
          Room.evaluate (Room.requiredSeats_of v) opts = BestFit j (Fin c)
          /\ opts !! j = Some best /\ value best <> []
          /\ capacity_of best = Fin c
          /\ forall (k : nat) opt c', opts !! k = Some opt ->
               value opt <> [] -> capacity_of opt = Fin c' -> 0 <= c' ->
               c <= c' /\ (c' = c -> (j <= k)%nat)).
Proof.
  intros Hv.
  assert (R : Room.requiredSeats_of v = Fin 0).
  { unfold Room.requiredSeats_of. rewrite Hv. reflexivity. }
  assert (C : Bus.count_of v = Fin 0).
  { unfold Bus.count_of. rewrite Hv. reflexivity. }
  split; [exact R|]. split; [exact C|]. split; [|split; [|split; [|split]]].
  - intros pg. unfold Room.countInput_oninput. rewrite R. reflexivity.
  - intros pg. unfold Bus.headcountInput_oninput. rewrite C. reflexivity.
  - intros opts. rewrite R. reflexivity.
  - intros opts Hneg. rewrite R, room_evaluate_search.
    rewrite search_none; [reflexivity|].
    intros k opt d Hk Hs. apply surplus_at_Some in Hs as (Hval & Hl & ->).
    destruct (capacity_cases opt) as [E | [c E]]; rewrite E in *;
      [reflexivity|].
    specialize (Hneg k opt c Hk Hval E). simpl in Hl.
    apply Z.ltb_ge in Hl. lia.
  - intros opts Hex.
    destruct (search_found 0 opts Hex)
      as (j & best & c & E & Hj & Hval & Hc & Hle & Hmin).
    replace (c - 0) with c in E by lia.
    exists j, best, c. rewrite R, room_evaluate_search, E.
    split; [reflexivity|]. split; [exact Hj|]. split; [exact Hval|].
    split; [exact Hc | exact Hmin].
Qed.

Lemma C6_witness :
  parseInt [] = NaN
  /\ Room.requiredSeats_of [] = Fin 0
  /\ Room.countInput_oninput [] roomPage
     = Room.countInput_oninput (lit "0") roomPage.
Proof.
  split; [reflexivity|].
  destruct (C6_non_numeric_input [] eq_refl) as (R & _ & P & _).
  split; [exact R | exact (P roomPage)].
Defined.

(** C7. The outcome of an evaluation is a function of the requirement
    and of what the options carry from the server (value, capacity and
    name): two pages with the same candidates give the same outcome for
    the same input, whatever evaluations came before on either page and
    whatever those wrote into the options, the select box and the
    banner.  Evaluating the same input a second time changes nothing. *)
Theorem C7_deterministic (v : jsstring) (hist1 hist2 : list jsstring)
    (pg1 pg2 : Room.page) :
  candidate_view <$> Room.options pg1 = candidate_view <$> Room.options pg2 ->
  Room.evaluate (Room.requiredSeats_of v) (Room.options (Room.run hist1 pg1))
  = Room.evaluate (Room.requiredSeats_of v)
      (Room.options (Room.run hist2 pg2))
  /\ Room.countInput_oninput v (Room.countInput_oninput v pg1)
     = Room.countInput_oninput v pg1.
Proof.
  intros H. split; [|apply room_listener_idem].
  apply evaluate_view.
  rewrite (room_run_view hist1 pg1), (room_run_view hist2 pg2). exact H.
Qed.

Lemma C7_witness :
  Room.evaluate (Room.requiredSeats_of (lit "40"))
    (Room.options (Room.run [lit "60"; lit "10"] roomPage))
  = Room.evaluate (Room.requiredSeats_of (lit "40"))
      (Room.options (Room.run [] roomPage)).
Proof.
  apply (C7_deterministic (lit "40") [lit "60"; lit "10"] [] roomPage roomPage).
  reflexivity.
Defined.

(** C8, as stated, fails: a negative requirement is accepted as it is,
    but not every candidate sequence then yields a best fit.  A room
    without a numeric capacity is enabled and never chosen, so a page
    with only such a room gets no recommendation at all, and a room
    whose capacity is a number below the requirement is disabled. *)
Lemma C8_counterexample :
  Room.requiredSeats_of (lit "-5") = Fin (-5)
  /\ Room.evaluate (Fin (-5)) [placeholder; noCapacity "7" "Annex"] = Empty
  /\ Bus.evaluate (Fin (-5)) [placeholder; noCapacity "7" "Annex"] = Empty
  /\ (forall j s,
        Room.evaluate (Fin (-5)) [placeholder; noCapacity "7" "Annex"]
        <> BestFit j s)
  /\ capacity_of (room "9" "Z" "-10") = Fin (-10)
  /\ disabled
       (fst (Room.visit (Fin (-5)) 0 (room "9" "Z" "-10") Room.scan0))
     = true.
Proof.
  repeat split. intros j s H. discriminate H.
Qed.

(** C8, amended.  An input that [parseInt] reads as a negative integer
    is taken as it is, neither rejected nor raised to 0.  On options
    with at least one candidate, all candidates having non-negative
    integer capacities, and with the requirement, the capacities and
    their differences in the range where the code's numbers are exact
    (magnitude up to 2^53), every candidate then fits and is enabled,
    and the outcome is [BestFit] for the earliest candidate of least
    capacity, with a surplus [capacity - r] that exceeds that
    capacity. *)
Theorem C8_negative_requirement (v : jsstring) (r : Z)
    (opts : list option_elt) :
  parseInt v = Fin r -> r < 0 ->
  (exists (k : nat) opt, opts !! k = Some opt /\ value opt <> []) ->
  (forall (k : nat) opt, opts !! k = Some opt -> value opt <> [] ->
     exists c, capacity_of opt = Fin c /\ 0 <= c) ->
  exact_for r opts ->
  Room.requiredSeats_of v = Fin r
  /\ Bus.count_of v = Fin r
  /\ (forall (k : nat) opt, opts !! k = Some opt -> value opt <> [] ->
        lt (capacity_of opt) (Fin r) = false
        /\ exists opt',
             fst (forEach (Room.visit (Fin r)) 0 opts Room.scan0) !! k
             = Some opt'
             /\ disabled opt' = false)
  /\ exists (j : nat) best c,
       Room.evaluate (Fin r) opts = BestFit j (Fin (c - r))
       /\ Bus.evaluate (Fin r) opts = BestFit j (Fin (c - r))
       /\ opts !! j = Some best /\ value best <> []
       /\ capacity_of best = Fin c
       /\ (forall (k : nat) opt c',
             opts !! k = Some opt -> value opt <> [] ->
             capacity_of opt = Fin c' -> c <= c' /\ (c' = c -> (j <= k)%nat))
       /\ c < c - r /\ exact (c - r).
Proof.
  intros Hv Hr (k0 & o0 & Hk0 & Hval0) Hcap [_ Hexact].
  assert (R : or (parseInt v) (Fin 0) = Fin r).
  { rewrite Hv. unfold or. simpl. destruct (Z.eqb_spec r 0); [lia|reflexivity]. }
  split; [exact R|]. split; [exact R|]. split.
  - intros k opt Hk Hval. destruct (Hcap k opt Hk Hval) as (c & Hc & Hpos).
    assert (L : lt (capacity_of opt) (Fin r) = false).
    { rewrite Hc. simpl. apply Z.ltb_ge. lia. }
    split; [exact L|].
    destruct (room_forEach (Fin r) opts) as (st & E & _). rewrite E. simpl.
    rewrite list_lookup_fmap, Hk. eexists. split; [reflexivity|].
    apply room_relabel_fits; auto.
  - destruct (Hcap k0 o0 Hk0 Hval0) as (c0 & Hc0 & Hpos0).
    destruct (search_found r opts)
      as (j & best & c & E & Hj & Hval & Hc & Hle & Hmin).
    { exists k0, o0, c0. repeat split; auto. lia. }
    exists j, best, c.
    rewrite room_evaluate_search, bus_evaluate_search, E.
    assert (G : gt (Fin r) (Fin 0) = false) by (apply Z.ltb_ge; lia).
    rewrite G. simpl.
    split; [reflexivity|]. split; [reflexivity|].
    split; [exact Hj|]. split; [exact Hval|]. split; [exact Hc|].
    split; [|split; [lia | apply (Hexact j best c Hj Hval Hc)]].
    intros k opt c' Hk Hvalk Hck.
    destruct (Hcap k opt Hk Hvalk) as (c'' & Hc'' & Hpos'').
    assert (c'' = c') by congruence. subst c''.
    apply (Hmin k opt c'); auto. lia.
Qed.

Lemma C8_witness :
  parseInt (lit "-5") = Fin (-5)
  /\ Room.requiredSeats_of (lit "-5") = Fin (-5)
  /\ exists (j : nat) best c,
       Room.evaluate (Fin (-5)) rooms = BestFit j (Fin (c - -5))
       /\ rooms !! j = Some best
       /\ capacity_of best = Fin c
       /\ c < c - -5.
Proof.
  split; [reflexivity|].
  assert (Caps : forall (k : nat) opt, rooms !! k = Some opt ->
            value opt <> [] ->
            exists c, capacity_of opt = Fin c /\ 0 <= c <= 50).
  { intros [|[|[|[|k]]]] opt Hk Hval; simpl in Hk; inversion Hk; subst.
    - contradiction Hval. reflexivity.
    - exists 30. split; [reflexivity | lia].
    - exists 50. split; [reflexivity | lia].
    - exists 45. split; [reflexivity | lia]. }
  destruct (C8_negative_requirement (lit "-5") (-5) rooms eq_refl)
    as (R & _ & _ & j & best & c & E & _ & Hj & _ & Hc & _ & Hs & _).
  - lia.
  - exists 1%nat, (room "1" "A" "30"). split; [reflexivity | discriminate].
  - intros k opt Hk Hval. destruct (Caps k opt Hk Hval) as (c & Hc & Hb).
    exists c. split; [exact Hc | lia].
  - split; [unfold exact; lia|]. intros k opt c Hk Hval Hc.
    destruct (Caps k opt Hk Hval) as (c' & Hc' & Hb).
    assert (c' = c) by congruence. subst c'. unfold exact. lia.
  - split; [exact R|]. exists j, best, c. auto.
Defined.

(** C9. A candidate whose [data-capacity] is missing or not a number is
    never disabled, whatever the requirement: both comparisons that
    involve its capacity are false, so each listener enables it and
    relabels it as fitting, and neither ever picks it as the best fit. *)
Theorem C9_nan_capacity (r : num) (opts : list option_elt) (k : nat)
    (opt : option_elt) :
  opts !! k = Some opt -> value opt <> [] -> capacity_of opt = NaN ->
  lt (capacity_of opt) r = false
  /\ gt r (capacity_of opt) = false
  /\ (forall smallest, lt (sub (capacity_of opt) r) smallest = false)
  /\ (exists opt',
        fst (forEach (Room.visit r) 0 opts Room.scan0) !! k = Some opt'
        /\ disabled opt' = false
        /\ textContent opt' = fitsLabel (data_name opt) NaN)
  /\ (exists opt',
        fst (forEach (Bus.visit r) 0 opts Bus.scan0) !! k = Some opt'
        /\ disabled opt' = false
        /\ textContent opt' = fitsLabel (data_name opt) NaN)
  /\ (forall s, Room.evaluate r opts <> BestFit k s)
  /\ (forall s, Bus.evaluate r opts <> BestFit k s).
Proof.
  intros Hk Hval Hc.
  assert (L : lt (capacity_of opt) r = false) by (rewrite Hc; reflexivity).
  assert (Hpick : forall s, search r opts <> (Some k, s)).
  { intros s E. destruct (search_lookup _ _ _ _ E) as (best & Hb & Sb & Hs).
    rewrite Hk in Hb. inversion Hb; subst best.
    apply surplus_at_Some in Sb as (_ & _ & ->).
    rewrite Hc in Hs. discriminate Hs. }
  split; [exact L|]. split; [exact L|]. split.
  { intros smallest. rewrite Hc. reflexivity. }
  split; [|split; [|split]].
  - destruct (room_forEach r opts) as (st & E & _). rewrite E. simpl.
    rewrite list_lookup_fmap, Hk. eexists. split; [reflexivity|].
    rewrite <- Hc. apply room_relabel_fits; auto.
  - destruct (bus_forEach r opts) as (st & E & _). rewrite E. simpl.
    rewrite list_lookup_fmap, Hk. eexists. split; [reflexivity|].
    rewrite <- Hc. apply bus_relabel_fits; auto.
  - intros s. rewrite room_evaluate_search.
    destruct (search r opts) as [[i|] s'] eqn:E.
    + intros H. inversion H; subst. exact (Hpick _ eq_refl).
    + destruct (gt r (Fin 0)); discriminate.
  - intros s. rewrite bus_evaluate_search.
    destruct (gt r (Fin 0) && negb (existsb (fits r) opts)); [discriminate|].
    destruct (search r opts) as [[i|] s'] eqn:E.
    + intros H. inversion H; subst. exact (Hpick _ eq_refl).
    + discriminate.
Qed.

Lemma C9_witness :
  (exists opt',
     fst (forEach (Room.visit (Fin 40)) 0
            [placeholder; noCapacity "7" "Annex"; room "2" "B" "50"]
            Room.scan0) !! 1%nat = Some opt'
     /\ disabled opt' = false
     /\ textContent opt' = lit "Annex (Capacity: NaN)")
  /\ forall s,
       Room.evaluate (Fin 40)
         [placeholder; noCapacity "7" "Annex"; room "2" "B" "50"]
       <> BestFit 1 s.
Proof.
  destruct (C9_nan_capacity (Fin 40)
              [placeholder; noCapacity "7" "Annex"; room "2" "B" "50"]
              1 (noCapacity "7" "Annex"))
    as (_ & _ & _ & H & _ & P & _).
  - reflexivity.
  - discriminate.
  - reflexivity.
  - split; assumption.
Defined.

(** C10. The room listener writes the banner's class only in its no-fit
    branch.  An evaluation with any other outcome leaves the class as it
    was, so once a [NoFit] evaluation has set the danger class, a later
    [BestFit] evaluation -- whatever evaluations come in between --
    shows its banner with that danger class.  The bus listener sets the
    class afresh at the start of every evaluation, so there the class
    after an evaluation is determined by that evaluation alone. *)
Theorem C10_banner_class (pg : Room.page) (v1 v2 : jsstring)
    (mid : list jsstring) (c : num) (j : nat) (s : num) :
  Room.evaluate (Room.requiredSeats_of v1) (Room.options pg) = NoFit c ->
  Room.evaluate (Room.requiredSeats_of v2) (Room.options pg) = BestFit j s ->
  className (Room.recommendText (Room.countInput_oninput v2 pg))
  = className (Room.recommendText pg)
  /\ className (Room.recommendText (Room.countInput_oninput v1 pg))
     = lit "form-text text-danger fw-bold mt-2"
  /\ (let pg' := Room.run (v1 :: mid ++ [v2]) pg in
      className (Room.recommendText pg')
      = lit "form-text text-danger fw-bold mt-2"
      /\ display (Room.recommendText pg') = lit "block"
      /\ exists best,
           Room.options pg !! j = Some best
           /\ innerHTML (Room.recommendText pg')
              = Room.bestFitMessage (data_name best))
  /\ forall (bv : jsstring) (bpg : Bus.page),
       className (Bus.suggestionText (Bus.headcountInput_oninput bv bpg))
       = match Bus.evaluate (Bus.count_of bv) (Bus.options bpg) with
         | NoFit _ => lit "form-text fw-bold mt-2 text-danger"
         | BestFit _ _ => lit "form-text fw-bold mt-2 text-success"
         | Empty => lit "form-text fw-bold mt-2"
         end.
Proof.
  intros H1 H2. split; [|split; [|split]].
  - rewrite room_class_step, H2. reflexivity.
  - rewrite room_class_step, H1. reflexivity.
  - intros pg'. subst pg'.
    change (v1 :: mid ++ [v2]) with ([v1] ++ (mid ++ [v2])).
    rewrite app_assoc, room_run_app.
    set (p := Room.run ([v1] ++ mid) pg).
    assert (Hp : className (Room.recommendText p) = Room.dangerClass).
    { subst p. rewrite room_run_app. apply room_class_sticky.
      unfold Room.run. simpl. rewrite room_class_step, H1. reflexivity. }
    assert (Ev : Room.evaluate (Room.requiredSeats_of v2) (Room.options p)
                 = BestFit j s).
    { rewrite <- H2. apply evaluate_view. subst p. apply room_run_view. }
    destruct (forEach_bestFit_lookup _ _ _ _ (or_introl Ev))
      as (best & Hb & _).
    destruct (forEach_bestFit_lookup _ _ _ _ (or_introl H2))
      as (best0 & Hb0 & _).
    assert (Hn : data_name best = data_name best0).
    { pose proof (room_run_view ([v1] ++ mid) pg) as V. fold p in V.
      apply (f_equal (fun l => l !! j)) in V.
      rewrite !list_lookup_fmap, Hb, Hb0 in V. simpl in V.
      unfold candidate_view in V. congruence. }
    unfold Room.run at 1. simpl. rewrite room_listener. cbv zeta. rewrite Ev.
    rewrite list_lookup_fmap, Hb. simpl.
    split; [exact Hp|]. split; [reflexivity|].
    exists best0. split; [exact Hb0|].
    pose proof (room_relabel_view (Room.requiredSeats_of v2) best) as Hview.
    unfold candidate_view in Hview. inversion Hview as [[Ha Hb' Hc']].
    rewrite Hc', Hn. reflexivity.
  - intros bv bpg. rewrite bus_listener. cbv zeta.
    destruct (Bus.evaluate (Bus.count_of bv) (Bus.options bpg)) as [i s'| |] eqn:E.
    + destruct (forEach_bestFit_lookup _ _ _ _ (or_intror E))
        as (best & Hb & _).
      rewrite list_lookup_fmap, Hb. reflexivity.
    + reflexivity.
    + reflexivity.
Qed.

Lemma C10_witness :
  className (Room.recommendText roomPage) = lit "form-text"
  /\ className (Room.recommendText
                  (Room.run [lit "60"; lit "55"; lit "40"] roomPage))
     = lit "form-text text-danger fw-bold mt-2"
  /\ display (Room.recommendText
                (Room.run [lit "60"; lit "55"; lit "40"] roomPage))
     = lit "block".
Proof.
  split; [reflexivity|].
  destruct (C10_banner_class roomPage (lit "60") (lit "40") [lit "55"]
              (Fin 60) 3 (Fin 5) eq_refl eq_refl)
    as (_ & _ & (Hc & Hd & _) & _).
  split; assumption.
Defined.


(** ** Class tokens *)

Lemma push_token_set cur acc :
  no_space cur -> token_set acc -> token_set (push_token cur acc).
Proof.
  intros Hc [Hn Hv]. unfold push_token.
  destruct (decide (cur = [])); [split; auto|].
  destruct (decide (cur ∈ acc)); [split; auto|].
  split.
  - apply list.NoDup_app. repeat split; auto.
    + intros x Hx Hx'. apply list_elem_of_singleton in Hx'. subst. auto.
    + apply list.NoDup_singleton.
  - apply Forall_app. split; auto. repeat constructor; auto.
Qed.

Lemma parse_tokens_set s : forall cur acc,
  no_space cur -> token_set acc -> token_set (parse_tokens s cur acc).
Proof.
  induction s as [|c s IH]; intros cur acc Hc Ha; simpl.
  - apply push_token_set; auto.
  - destruct (isAsciiWhitespace c) eqn:E.
    + apply IH; [constructor | apply push_token_set; auto].
    + apply IH; auto. apply Forall_app. split; auto.
Qed.

Lemma tokens_set cls : token_set (tokens cls).
Proof.
  apply parse_tokens_set; [constructor | split; constructor].
Qed.

Lemma parse_tokens_word t : forall rest cur acc,
  no_space t ->
  parse_tokens (t ++ rest) cur acc = parse_tokens rest (cur ++ t) acc.
Proof.
  induction t as [|c t IH]; intros rest cur acc Ht; simpl.
  - rewrite app_nil_r. reflexivity.
  - inversion Ht as [|? ? Hc Ht']; subst. rewrite Hc.
    rewrite IH; auto. rewrite <- app_assoc. reflexivity.
Qed.

Lemma parse_tokens_tail ts : forall cur acc,
  valid_token cur -> token_set (acc ++ cur :: ts) ->
  parse_tokens (concat (map (fun x => 32%N :: x) ts)) cur acc
  = acc ++ cur :: ts.
Proof.
  induction ts as [|t ts IH]; intros cur acc [Hne Hsp] [Hn Hv]; simpl.
  - unfold push_token. destruct (decide (cur = [])); [contradiction|].
    apply list.NoDup_app in Hn as (_ & Hd & _).
    destruct (decide (cur ∈ acc)) as [Hin|]; [|reflexivity].
    exfalso. apply (Hd cur Hin). left.
  - assert (P : push_token cur acc = acc ++ [cur]).
    { unfold push_token. destruct (decide (cur = [])); [contradiction|].
      apply list.NoDup_app in Hn as (_ & Hd & _).
      destruct (decide (cur ∈ acc)) as [Hin|]; [|reflexivity].
      exfalso. apply (Hd cur Hin). left. }
    rewrite P.
    assert (Vt : valid_token t).
    { apply Forall_app in Hv as [_ Hv]. inversion Hv as [|? ? _ Hv']; subst.
      inversion Hv'; subst. auto. }
    rewrite parse_tokens_word by apply Vt. simpl.
    rewrite IH; auto.
    + rewrite <- app_assoc. reflexivity.
    + rewrite <- app_assoc. simpl. split; auto.
Qed.

(** Reading back a written class attribute gives the tokens written. *)
Lemma tokens_serialize ts :
  token_set ts -> tokens (serialize_tokens ts) = ts.
Proof.
  intros Hts. unfold tokens. destruct ts as [|t ts]; [reflexivity|].
  simpl. assert (Vt : valid_token t).
  { destruct Hts as [_ Hv]. inversion Hv; auto. }
  rewrite parse_tokens_word by apply Vt. simpl.
  apply (parse_tokens_tail ts t []); auto.
Qed.

Lemma tokens_add tok cls :
  valid_token tok ->
  tokens (classList_add tok cls)
  = if decide (tok ∈ tokens cls) then tokens cls else tokens cls ++ [tok].
Proof.
  intros Vt. unfold classList_add. fold (tokens cls).
  apply tokens_serialize.
  destruct (tokens_set cls) as [Hn Hv].
  destruct (decide (tok ∈ tokens cls)); [split; auto|].
  split.
  - apply list.NoDup_app. repeat split; auto.
    + intros x Hx Hx'. apply list_elem_of_singleton in Hx'. subst. auto.
    + apply list.NoDup_singleton.
  - apply Forall_app. split; auto.
Qed.

Lemma tokens_remove tok cls :
  tokens (classList_remove tok cls)
  = filter (fun t => t <> tok) (tokens cls).
Proof.
  unfold classList_remove. fold (tokens cls).
  apply tokens_serialize.
  destruct (tokens_set cls) as [Hn Hv]. split.
  - apply list.NoDup_filter. exact Hn.
  - apply list.Forall_forall. intros x Hx.
    apply list_elem_of_filter in Hx as [_ Hx].
    rewrite list.Forall_forall in Hv. auto.
Qed.

Lemma token_in_add tok cls t :
  valid_token tok ->
  t ∈ tokens (classList_add tok cls) <-> t = tok \/ t ∈ tokens cls.
Proof.
  intros Vt. rewrite tokens_add by exact Vt.
  destruct (decide (tok ∈ tokens cls)).
  - split; [auto | intros [-> | H]; auto].
  - rewrite elem_of_app, list_elem_of_singleton. tauto.
Qed.

Lemma token_in_remove tok cls t :
  t ∈ tokens (classList_remove tok cls) <-> t <> tok /\ t ∈ tokens cls.
Proof.
  rewrite tokens_remove, list_elem_of_filter. tauto.
Qed.

Lemma valid_lit_d_none : valid_token (lit "d-none").
Proof. split; [discriminate | repeat constructor]. Qed.

Lemma valid_lit_btn_google : valid_token (lit "btn-google").
Proof. split; [discriminate | repeat constructor]. Qed.

Lemma valid_lit_btn_secondary : valid_token (lit "btn-secondary").
Proof. split; [discriminate | repeat constructor]. Qed.

(** ** Outcomes, read backwards *)

Lemma bus_relabel_eq r opt : bus_relabel r opt = room_relabel r opt.
Proof.
  unfold bus_relabel, room_relabel, Bus.visit, Room.visit, gt.
  destruct (decide (value opt = [])); [reflexivity|].
  destruct (lt (parseInt (str (data_capacity opt))) r); [reflexivity|].
  simpl. destruct (lt _ PosInf); reflexivity.
Qed.

Lemma search_nothing r (opts : list option_elt) s :
  search r opts = (None, s) ->
  forall (k : nat) opt d, opts !! k = Some opt ->
    surplus_at r opt = Some d -> lt d PosInf = false.
Proof.
  unfold search. intros E k opt d Hk Hs.
  destruct (running_min_spec (surplus_at r <$> opts) 0 None PosInf)
    as [[_ All] | (j & d' & E' & _)].
  - apply (All k). apply surplus_lookup. eauto.
  - rewrite E' in E. discriminate.
Qed.

(** A candidate whose capacity is a number of at least [z]. *)
Lemma numeric_fit_surplus (z c : Z) opt :
  value opt <> [] -> capacity_of opt = Fin c -> z <= c ->
  surplus_at (Fin z) opt = Some (Fin (c - z)).
Proof.
  intros Hv Hc Hz. apply surplus_at_Some. rewrite Hc. simpl.
  repeat split; auto. apply Z.ltb_ge. lia.
Qed.

Lemma search_some_inv (z : Z) (opts : list option_elt) (j : nat) s :
  search (Fin z) opts = (Some j, s) ->
  exists best c,
    opts !! j = Some best /\ value best <> [] /\ capacity_of best = Fin c
    /\ z <= c /\ s = Fin (c - z)
    /\ forall (k : nat) opt c', opts !! k = Some opt -> value opt <> [] ->
         capacity_of opt = Fin c' -> z <= c' ->
         c <= c' /\ (c' = c -> (j <= k)%nat).
Proof.
  intros E. destruct (search_lookup _ _ _ _ E) as (best & Hb & Sb & Hs).
  apply surplus_at_Some in Sb as (Hval & Hl & ->).
  destruct (capacity_cases best) as [Ec | [c Ec]]; rewrite Ec in *;
    [discriminate Hs|].
  simpl in Hl. apply Z.ltb_ge in Hl.
  destruct (search_found z opts) as (j' & best' & c' & E' & Hj' & _ & Hc' & _ & Hmin).
  { exists j, best, c. auto. }
  rewrite E in E'. inversion E'; subst j'.
  rewrite Hb in Hj'. inversion Hj'; subst best'.
  assert (c' = c) by congruence. subst c'.
  exists best, c. repeat split; auto; apply (Hmin k opt c'); auto.
Qed.

Lemma search_cases (z : Z) (opts : list option_elt) :
  (exists (j : nat) s, search (Fin z) opts = (Some j, s)
     /\ exists (k : nat) opt c, opts !! k = Some opt /\ value opt <> []
          /\ capacity_of opt = Fin c /\ z <= c)
  \/ (search (Fin z) opts = (None, PosInf)
      /\ forall (k : nat) opt c, opts !! k = Some opt -> value opt <> [] ->
           capacity_of opt = Fin c -> c < z).
Proof.
  destruct (search (Fin z) opts) as [[j|] s] eqn:E.
  - left. exists j, s. split; [reflexivity|].
    destruct (search_some_inv _ _ _ _ E) as (best & c & Hb & Hv & Hc & Hz & _).
    exists j, best, c. auto.
  - right. split.
    + rewrite <- E. apply search_none. intros k opt d.
      apply (search_nothing _ _ _ E).
    + intros k opt c Hk Hv Hc. destruct (Z.lt_ge_cases c z) as [|Hge]; auto.
      pose proof (search_nothing _ _ _ E k opt _ Hk
                    (numeric_fit_surplus z c opt Hv Hc Hge)) as F.
      discriminate F.
Qed.

(** X1. The room listener's outcome decides, and is decided by, whether a
    candidate of numeric capacity fits: [BestFit] exactly when some
    candidate has a numeric capacity of at least the requirement,
    [NoFit] exactly when none has and the requirement is positive,
    [Empty] exactly when none has and the requirement is not positive. *)
Theorem X1_room_outcome_iff (z : Z) (opts : list option_elt) :
  let fitting :=
    exists (k : nat) opt c, opts !! k = Some opt /\ value opt <> []
      /\ capacity_of opt = Fin c /\ z <= c in
  ((exists j s, Room.evaluate (Fin z) opts = BestFit j s) <-> fitting)
  /\ (Room.evaluate (Fin z) opts = NoFit (Fin z) <-> 0 < z /\ ~ fitting)
  /\ (Room.evaluate (Fin z) opts = Empty <-> z <= 0 /\ ~ fitting)
  /\ forall r, Room.evaluate (Fin z) opts = NoFit r -> r = Fin z.
Proof.
  intros fitting. rewrite room_evaluate_search.
  change (gt (Fin z) (Fin 0)) with (0 <? z).
  destruct (search_cases z opts) as [(j & s & E & Hfit) | [E Hnone]];
    rewrite E.
  - split; [|split; [|split]].
    + split; eauto.
    + split; [discriminate | intros [_ Hn]; contradiction].
    + split; [discriminate | intros [_ Hn]; contradiction].
    + discriminate.
  - assert (Hn : ~ fitting).
    { intros (k & opt & c & Hk & Hv & Hc & Hz).
      specialize (Hnone k opt c Hk Hv Hc). lia. }
    destruct (Z.ltb_spec 0 z) as [Hz|Hz]; (split; [|split; [|split]]).
    + split; [intros (j & s & H); discriminate | contradiction].
    + split; auto.
    + split; [discriminate | intros [H _]; lia].
    + intros r H. inversion H. reflexivity.
    + split; [intros (j & s & H); discriminate | contradiction].
    + split; [discriminate | intros [H _]; lia].
    + split; auto.
    + discriminate.
Qed.

Lemma existsb_fits_false r (opts : list option_elt) :
  existsb (fits r) opts = false <->
  forall (k : nat) opt, opts !! k = Some opt -> value opt <> [] ->
    lt (capacity_of opt) r = true.
Proof.
  split.
  - intros H k opt Hk Hv. destruct (lt (capacity_of opt) r) eqn:L; auto.
    assert (existsb (fits r) opts = true); [|congruence].
    apply existsb_fits. exists k, opt. split; auto. apply fits_true. auto.
  - intros H. apply not_true_is_false. intros Hx.
    apply existsb_fits in Hx as (k & opt & Hk & Hf).
    apply fits_true in Hf as [Hv L]. rewrite (H k opt Hk Hv) in L.
    discriminate.
Qed.

(** X2. The two listeners rewrite every option alike, and they reach
    the same outcome except in one situation: the requirement is
    positive, no candidate of numeric capacity fits, and some candidate
    has a capacity that is not a number.  There the room listener
    reports [NoFit] while the bus listener, which counts that candidate
    as a valid bus, takes neither branch. *)
Theorem X2_listeners_agree (z : Z) (opts : list option_elt) :
  fst (forEach (Bus.visit (Fin z)) 0 opts Bus.scan0)
  = fst (forEach (Room.visit (Fin z)) 0 opts Room.scan0)
  /\ (Bus.evaluate (Fin z) opts <> Room.evaluate (Fin z) opts <->
      0 < z
      /\ (forall (k : nat) opt c, opts !! k = Some opt -> value opt <> [] ->
            capacity_of opt = Fin c -> c < z)
      /\ exists (k : nat) opt, opts !! k = Some opt /\ value opt <> []
                               /\ capacity_of opt = NaN)
  /\ (Bus.evaluate (Fin z) opts <> Room.evaluate (Fin z) opts ->
      Room.evaluate (Fin z) opts = NoFit (Fin z)
      /\ Bus.evaluate (Fin z) opts = Empty).
Proof.
  split.
  { destruct (room_forEach (Fin z) opts) as (st & E & _).
    destruct (bus_forEach (Fin z) opts) as (st' & E' & _).
    rewrite E, E'. simpl. apply list_fmap_ext. intros i o _.
    apply bus_relabel_eq. }
  rewrite room_evaluate_search, bus_evaluate_search.
  change (gt (Fin z) (Fin 0)) with (0 <? z).
  destruct (search_cases z opts) as [(j & s & E & Hfit) | [E Hnone]];
    rewrite E.
  - destruct Hfit as (k & opt & c & Hk & Hv & Hc & Hz).
    assert (V : existsb (fits (Fin z)) opts = true).
    { apply existsb_fits. exists k, opt. split; auto.
      apply fits_true. split; auto. rewrite Hc. apply Z.ltb_ge. lia. }
    rewrite V, andb_false_r. split; [split|].
    + intros H. contradiction.
    + intros (_ & Hall & _). specialize (Hall k opt c Hk Hv Hc). lia.
    + intros H. contradiction.
  - assert (V : existsb (fits (Fin z)) opts = true <->
                exists (k : nat) opt, opts !! k = Some opt /\ value opt <> []
                                      /\ capacity_of opt = NaN).
    { rewrite existsb_fits. split.
      - intros (k & opt & Hk & Hf). apply fits_true in Hf as [Hv L].
        exists k, opt. repeat split; auto.
        destruct (capacity_cases opt) as [Ec | [c Ec]]; auto.
        specialize (Hnone k opt c Hk Hv Ec). rewrite Ec in L.
        apply Z.ltb_ge in L. lia.
      - intros (k & opt & Hk & Hv & Ec). exists k, opt. split; auto.
        apply fits_true. split; auto. rewrite Ec. reflexivity. }
    destruct (Z.ltb_spec 0 z) as [Hz|Hz];
      destruct (existsb (fits (Fin z)) opts) eqn:Ex; simpl.
    + split; [split|].
      * intros _. split; [exact Hz|]. split; [exact Hnone|].
        apply V. reflexivity.
      * intros _. discriminate.
      * intros _. split; reflexivity.
    + split; [split|].
      * intros H. contradiction.
      * intros (_ & _ & H). apply V in H. discriminate.
      * intros H. contradiction.
    + split; [split|].
      * intros H. contradiction.
      * intros (H & _). lia.
      * intros H. contradiction.
    + split; [split|].
      * intros H. contradiction.
      * intros (H & _). lia.
      * intros H. contradiction.
Qed.

(** X3. The bus listener reports [NoFit] exactly when the count is
    positive and every candidate is too small, so that whenever it
    blocks the booking every candidate of the select box is disabled,
    the select box reads the empty value and the submit button is
    disabled. *)
Theorem X3_bus_no_fit (v : jsstring) (z : Z) (pg : Bus.page) :
  Bus.count_of v = Fin z ->
  let pg' := Bus.headcountInput_oninput v pg in
  (Bus.evaluate (Fin z) (Bus.options pg) = NoFit (Fin z) <->
   0 < z /\ forall (k : nat) opt, Bus.options pg !! k = Some opt ->
              value opt <> [] -> lt (capacity_of opt) (Fin z) = true)
  /\ (Bus.evaluate (Fin z) (Bus.options pg) = NoFit (Fin z) ->
      (forall (k : nat) opt', Bus.options pg' !! k = Some opt' ->
         value opt' <> [] -> disabled opt' = true)
      /\ select_value (Bus.options pg') (Bus.busSelect pg') = []
      /\ btn_disabled (Bus.submitBtn pg') = true
      /\ display (Bus.suggestionText pg') = lit "block").
Proof.
  intros Hc pg'.
  assert (Iff : Bus.evaluate (Fin z) (Bus.options pg) = NoFit (Fin z) <->
                0 < z /\ existsb (fits (Fin z)) (Bus.options pg) = false).
  { rewrite bus_evaluate_search.
    change (gt (Fin z) (Fin 0)) with (0 <? z).
    destruct (Z.ltb_spec 0 z) as [Hz|Hz];
      destruct (existsb (fits (Fin z)) (Bus.options pg)); simpl.
    - destruct (search _ _) as [[j|] s]; split;
        try discriminate; intros [_ H]; discriminate.
    - split; auto.
    - destruct (search _ _) as [[j|] s]; split;
        try discriminate; intros [H _]; lia.
    - destruct (search _ _) as [[j|] s]; split;
        try discriminate; intros [H _]; lia. }
  split.
  - rewrite Iff, existsb_fits_false. reflexivity.
  - intros E. pose proof E as E'. apply Iff in E' as [Hz Hall].
    rewrite existsb_fits_false in Hall.
    subst pg'. rewrite bus_listener. cbv zeta. rewrite Hc, E.
    cbn [Bus.options Bus.busSelect Bus.submitBtn Bus.suggestionText].
    split; [|split; [apply select_value_cleared | split; reflexivity]].
    intros k opt' Hk Hv.
    rewrite list_lookup_fmap in Hk.
    destruct (Bus.options pg !! k) as [opt|] eqn:Ek; [|discriminate].
    simpl in Hk. inversion Hk; subst opt'.
    pose proof (bus_relabel_view (Fin z) opt) as Hview.
    unfold candidate_view in Hview. inversion Hview as [[Ha Hb Hd]].
    rewrite Ha in Hv.
    apply bus_relabel_small; auto. apply (Hall k opt Ek Hv).
Qed.

Lemma X3_witness :
  Bus.count_of (lit "60") = Fin 60
  /\ forall (k : nat) opt',
       Bus.options (Bus.headcountInput_oninput (lit "60") busPage) !! k
       = Some opt' ->
       value opt' <> [] -> disabled opt' = true.
Proof.
  split; [reflexivity|].
  destruct (X3_bus_no_fit (lit "60") 60 busPage eq_refl) as [_ H].
  destruct (H eq_refl) as [D _]. exact D.
Defined.

Lemma room_relabel_disabled r opt :
  value opt <> [] ->
  disabled (room_relabel r opt) = lt (capacity_of opt) r.
Proof.
  intros Hv. destruct (lt (capacity_of opt) r) eqn:L.
  - apply room_relabel_small; auto.
  - apply room_relabel_fits; auto.
Qed.

Lemma room_relabel_value r opt : value (room_relabel r opt) = value opt.
Proof.
  pose proof (room_relabel_view r opt) as H. unfold candidate_view in H.
  congruence.
Qed.

Lemma room_relabel_placeholder r opt :
  value opt = [] -> room_relabel r opt = opt.
Proof.
  intros Hv. unfold room_relabel, Room.visit.
  destruct (decide (value opt = [])); [reflexivity | contradiction].
Qed.

(** X4. Raising the requirement never helps, as long as the
    requirements, the capacities and their differences stay in the range
    where the code's numbers are exact: a candidate the room listener
    disables for a requirement is disabled for every larger one, a
    [NoFit] outcome stays [NoFit], and when both requirements have a
    best fit the one for the larger requirement has at least the
    capacity of the other. *)
Theorem X4_requirement_monotone (z z' : Z) (opts : list option_elt) :
  z <= z' -> exact_for z opts -> exact z' ->
  (forall (k : nat) o1 o2,
     fst (forEach (Room.visit (Fin z)) 0 opts Room.scan0) !! k = Some o1 ->
     fst (forEach (Room.visit (Fin z')) 0 opts Room.scan0) !! k = Some o2 ->
     value o1 <> [] -> disabled o1 = true -> disabled o2 = true)
  /\ (Room.evaluate (Fin z) opts = NoFit (Fin z) ->
      Room.evaluate (Fin z') opts = NoFit (Fin z'))
  /\ (forall j s j' s',
        Room.evaluate (Fin z) opts = BestFit j s ->
        Room.evaluate (Fin z') opts = BestFit j' s' ->
        exists b b' c c',
          opts !! j = Some b /\ opts !! j' = Some b'
          /\ capacity_of b = Fin c /\ capacity_of b' = Fin c' /\ c <= c').
Proof.
  intros Hz _ _. split; [|split].
  - intros k o1 o2 H1 H2 Hv Hd.
    destruct (room_forEach (Fin z) opts) as (st & E & _).
    destruct (room_forEach (Fin z') opts) as (st' & E' & _).
    rewrite E in H1. rewrite E' in H2. simpl in H1, H2.
    rewrite list_lookup_fmap in H1, H2.
    destruct (opts !! k) as [opt|]; [|discriminate].
    simpl in H1, H2. inversion H1; inversion H2; subst.
    rewrite room_relabel_value in Hv.
    rewrite room_relabel_disabled in Hd |- * by exact Hv.
    destruct (capacity_cases opt) as [Ec | [c Ec]]; rewrite Ec in *;
      [discriminate Hd|].
    simpl in *. apply Z.ltb_lt in Hd. apply Z.ltb_lt. lia.
  - rewrite !room_evaluate_search.
    change (gt (Fin z) (Fin 0)) with (0 <? z).
    change (gt (Fin z') (Fin 0)) with (0 <? z').
    destruct (search_cases z opts) as [(j & s & E & _) | [E Hnone]];
      rewrite E; [discriminate|].
    destruct (Z.ltb_spec 0 z) as [H0|H0]; [|discriminate]. intros _.
    destruct (search_cases z' opts)
      as [(j & s & E' & k & opt & c & Hk & Hv & Hc & Hle) | [E' _]];
      rewrite E'.
    + specialize (Hnone k opt c Hk Hv Hc). lia.
    + destruct (Z.ltb_spec 0 z'); [reflexivity | lia].
  - intros j s j' s'. rewrite !room_evaluate_search.
    destruct (search (Fin z) opts) as [[i|] t] eqn:E;
      [|destruct (gt (Fin z) (Fin 0)); discriminate].
    destruct (search (Fin z') opts) as [[i'|] t'] eqn:E';
      [|destruct (gt (Fin z') (Fin 0)); discriminate].
    intros H H'. inversion H; inversion H'; subst.
    destruct (search_some_inv _ _ _ _ E)
      as (b & c & Hb & _ & Hc & _ & _ & Hmin).
    destruct (search_some_inv _ _ _ _ E')
      as (b' & c' & Hb' & Hv' & Hc' & Hle' & _).
    exists b, b', c, c'. repeat split; auto.
    apply (Hmin j' b' c'); auto. lia.
Qed.

Lemma rooms_exact (z : Z) :
  -1000 <= z <= 1000 -> exact_for z rooms.
Proof.
  intros Hz. split; [unfold exact; lia|].
  intros [|[|[|[|k]]]] opt c Hk Hval Hc; simpl in Hk; inversion Hk; subst;
    try (contradiction Hval; reflexivity);
    vm_compute in Hc; inversion Hc; subst; unfold exact; lia.
Qed.

Lemma X4_witness :
  60 <= 75 /\ Room.evaluate (Fin 75) rooms = NoFit (Fin 75).
Proof.
  split; [lia|].
  destruct (X4_requirement_monotone 60 75 rooms) as (_ & H & _);
    [lia | apply rooms_exact; lia | unfold exact; lia | exact (H eq_refl)].
Defined.

(** X5. After a best-fit evaluation by the room listener the select box
    reads the value of the best-fit option.  When no earlier option
    carries the same value, the option selected is the best-fit option
    itself, and it is enabled. *)
Theorem X5_auto_selection (v : jsstring) (pg : Room.page) (j : nat)
    (s : num) :
  Room.evaluate (Room.requiredSeats_of v) (Room.options pg) = BestFit j s ->
  let pg' := Room.countInput_oninput v pg in
  exists best,
    Room.options pg !! j = Some best /\ value best <> []
    /\ select_value (Room.options pg') (Room.spaceSelect pg') = value best
    /\ ((forall (i : nat) opt, (i < j)%nat ->
           Room.options pg !! i = Some opt -> value opt <> value best) ->
        Room.spaceSelect pg' = Some j
        /\ exists opt', Room.options pg' !! j = Some opt'
                        /\ disabled opt' = false).
Proof.
  intros E pg'.
  destruct (forEach_bestFit_lookup _ _ _ _ (or_introl E))
    as (best & Hb & Hv & Hs).
  exists best. split; [exact Hb|]. split; [exact Hv|].
  set (r := Room.requiredSeats_of v) in *.
  assert (Hpg : pg' = Room.mkPage (room_relabel r <$> Room.options pg)
            (select_set_value (value best) (Room.options pg))
            (set_innerHTML (Room.bestFitMessage (data_name best))
               (set_display (lit "block")
                  (set_display (lit "none") (Room.recommendText pg))))).
  { subst pg'. rewrite room_listener. cbv zeta. fold r. rewrite E.
    rewrite list_lookup_fmap, Hb. simpl.
    pose proof (room_relabel_view r best) as Hview.
    unfold candidate_view in Hview. inversion Hview as [[Ha Hc Hd]].
    rewrite Ha, Hd. f_equal.
    apply select_set_value_view. rewrite <- list_fmap_compose.
    apply list_fmap_ext. intros i o _. apply room_relabel_view. }
  rewrite Hpg. cbn [Room.options Room.spaceSelect].
  unfold select_set_value.
  destruct (list_find (fun opt => value opt = value best) (Room.options pg))
    as [[i x]|] eqn:F.
  - apply list_find_Some in F as (Hi & Hx & Hfirst). simpl.
    split.
    + rewrite list_lookup_fmap, Hi. simpl. rewrite room_relabel_value.
      exact Hx.
    + intros Hdistinct.
      assert (i = j).
      { destruct (Nat.lt_trichotomy i j) as [Hlt | [Heq | Hgt]]; auto.
        - destruct (Hdistinct i x Hlt Hi Hx).
        - destruct (Hfirst j best Hb Hgt). reflexivity. }
      subst i. split; [reflexivity|].
      rewrite list_lookup_fmap, Hb. simpl. eexists. split; [reflexivity|].
      rewrite room_relabel_disabled by exact Hv.
      destruct (surplus_at r best) as [d|] eqn:Sd.
      * apply surplus_at_Some in Sd. tauto.
      * exfalso. revert E. rewrite room_evaluate_search.
        destruct (search r (Room.options pg)) as [[i'|] t] eqn:Es;
          [|destruct (gt r (Fin 0)); discriminate].
        intros H. inversion H; subst.
        destruct (search_lookup _ _ _ _ Es) as (b & Hb' & Sb & _).
        congruence.
  - exfalso. apply list_find_None in F.
    rewrite list.Forall_forall in F. apply (F best); [|reflexivity].
    apply list_elem_of_lookup. eauto.
Qed.

Lemma X5_witness :
  exists best,
    rooms !! 3%nat = Some best
    /\ select_value
         (Room.options (Room.countInput_oninput (lit "40") roomPage))
         (Room.spaceSelect (Room.countInput_oninput (lit "40") roomPage))
       = value best.
Proof.
  destruct (X5_auto_selection (lit "40") roomPage 3 (Fin 5) eq_refl)
    as (best & Hb & _ & Hs & _).
  exists best. split; assumption.
Defined.

Lemma bus_relabel_placeholder r opt :
  value opt = [] -> bus_relabel r opt = opt.
Proof. rewrite bus_relabel_eq. apply room_relabel_placeholder. Qed.

Lemma room_run_placeholder hist : forall pg (k : nat) opt,
  Room.options pg !! k = Some opt -> value opt = [] ->
  Room.options (Room.run hist pg) !! k = Some opt.
Proof.
  induction hist as [|v hist IH]; intros pg k opt Hk Hv; [exact Hk|].
  unfold Room.run in *. simpl. apply IH; auto.
  rewrite room_options_after, list_lookup_fmap, Hk. simpl.
  rewrite room_relabel_placeholder; auto.
Qed.

Lemma bus_run_placeholder hist : forall pg (k : nat) opt,
  Bus.options pg !! k = Some opt -> value opt = [] ->
  Bus.options (Bus.run hist pg) !! k = Some opt.
Proof.
  induction hist as [|v hist IH]; intros pg k opt Hk Hv; [exact Hk|].
  unfold Bus.run in *. simpl. apply IH; auto.
  rewrite bus_options_after, list_lookup_fmap, Hk. simpl.
  rewrite bus_relabel_placeholder; auto.
Qed.

(** X6. Whatever is typed, and however often, the listeners keep the
    select box as the server built it: the number and order of the
    options, and the value, [data-capacity] and [data-name] of each, do
    not change, and the placeholder option is never touched at all. *)
Theorem X6_options_frame (hist : list jsstring) (pg : Room.page)
    (bpg : Bus.page) :
  length (Room.options (Room.run hist pg)) = length (Room.options pg)
  /\ length (Bus.options (Bus.run hist bpg)) = length (Bus.options bpg)
  /\ (forall (k : nat) opt, Room.options pg !! k = Some opt ->
        exists opt', Room.options (Room.run hist pg) !! k = Some opt'
          /\ value opt' = value opt
          /\ data_capacity opt' = data_capacity opt
          /\ data_name opt' = data_name opt
          /\ (value opt = [] -> opt' = opt))
  /\ (forall (k : nat) opt, Bus.options bpg !! k = Some opt ->
        exists opt', Bus.options (Bus.run hist bpg) !! k = Some opt'
          /\ value opt' = value opt
          /\ data_capacity opt' = data_capacity opt
          /\ data_name opt' = data_name opt
          /\ (value opt = [] -> opt' = opt)).
Proof.
  pose proof (room_run_view hist pg) as R.
  pose proof (bus_run_view hist bpg) as B.
  split; [|split; [|split]].
  - apply (f_equal length) in R. rewrite !length_fmap in R. exact R.
  - apply (f_equal length) in B. rewrite !length_fmap in B. exact B.
  - intros k opt Hk.
    apply (f_equal (fun l => l !! k)) in R.
    rewrite !list_lookup_fmap, Hk in R. simpl in R.
    destruct (Room.options (Room.run hist pg) !! k) as [opt'|] eqn:E;
      [|discriminate].
    simpl in R. unfold candidate_view in R. inversion R as [[Ha Hb Hc]].
    exists opt'. repeat split; auto.
    intros Hv. assert (Hv' : value opt = []) by congruence.
    pose proof (room_run_placeholder hist pg k opt Hk Hv') as P.
    congruence.
  - intros k opt Hk.
    apply (f_equal (fun l => l !! k)) in B.
    rewrite !list_lookup_fmap, Hk in B. simpl in B.
    destruct (Bus.options (Bus.run hist bpg) !! k) as [opt'|] eqn:E;
      [|discriminate].
    simpl in B. unfold candidate_view in B. inversion B as [[Ha Hb Hc]].
    exists opt'. repeat split; auto.
    intros Hv. assert (Hv' : value opt = []) by congruence.
    pose proof (bus_run_placeholder hist bpg k opt Hk Hv') as P.
    congruence.
Qed.

(** ** The submit button of the bus page *)

Lemma token_btn_blocked cls :
  lit "btn-secondary"
    ∈ tokens (classList_remove (lit "btn-google")
                (classList_add (lit "btn-secondary") cls))
  /\ (lit "btn-google"
        ∉ tokens (classList_remove (lit "btn-google")
                    (classList_add (lit "btn-secondary") cls)))
  /\ forall t, t <> lit "btn-google" -> t <> lit "btn-secondary" ->
       (t ∈ tokens (classList_remove (lit "btn-google")
                      (classList_add (lit "btn-secondary") cls))
        <-> t ∈ tokens cls).
Proof.
  repeat split.
  - apply token_in_remove. split; [discriminate|].
    apply token_in_add; [apply valid_lit_btn_secondary | auto].
  - intros H. apply token_in_remove in H as [H _]. congruence.
  - intros H1. apply token_in_remove in H1 as [_ H1].
    apply token_in_add in H1 as [H1|H1]; [congruence | auto |].
    apply valid_lit_btn_secondary.
  - intros H1. apply token_in_remove. split; auto.
    apply token_in_add; [apply valid_lit_btn_secondary | auto].
Qed.

Lemma token_btn_allowed cls :
  lit "btn-google"
    ∈ tokens (classList_add (lit "btn-google")
                (classList_remove (lit "btn-secondary") cls))
  /\ (lit "btn-secondary"
        ∉ tokens (classList_add (lit "btn-google")
                    (classList_remove (lit "btn-secondary") cls)))
  /\ forall t, t <> lit "btn-google" -> t <> lit "btn-secondary" ->
       (t ∈ tokens (classList_add (lit "btn-google")
                      (classList_remove (lit "btn-secondary") cls))
        <-> t ∈ tokens cls).
Proof.
  repeat split.
  - apply token_in_add; [apply valid_lit_btn_google | auto].
  - intros H. apply token_in_add in H as [H|H];
      [discriminate | | apply valid_lit_btn_google].
    apply token_in_remove in H as [H _]. congruence.
  - intros H1. apply token_in_add in H1 as [H1|H1];
      [congruence | | apply valid_lit_btn_google].
    apply token_in_remove in H1 as [_ H1]. exact H1.
  - intros H1. apply token_in_add; [apply valid_lit_btn_google|].
    right. apply token_in_remove. split; auto.
Qed.

(** X7. The bus listener keeps the styling of the submit button in step
    with its state: after a [NoFit] evaluation the button carries the
    class [btn-secondary] and not [btn-google], after a [BestFit]
    evaluation [btn-google] and not [btn-secondary]; every other class
    of the button is kept, and an [Empty] evaluation leaves the class
    attribute as it is. *)
Theorem X7_button_classes (v : jsstring) (pg : Bus.page) :
  let before := tokens (btn_className (Bus.submitBtn pg)) in
  let after :=
    tokens (btn_className
              (Bus.submitBtn (Bus.headcountInput_oninput v pg))) in
  match Bus.evaluate (Bus.count_of v) (Bus.options pg) with
  | NoFit _ =>
      lit "btn-secondary" ∈ after /\ lit "btn-google" ∉ after
  | BestFit _ _ =>
      lit "btn-google" ∈ after /\ lit "btn-secondary" ∉ after
  | Empty =>
      after = before
      /\ Bus.submitBtn (Bus.headcountInput_oninput v pg) = Bus.submitBtn pg
  end
  /\ forall t, t <> lit "btn-google" -> t <> lit "btn-secondary" ->
       (t ∈ after <-> t ∈ before).
Proof.
  intros before after. subst before after.
  rewrite bus_listener. cbv zeta.
  destruct (Bus.evaluate (Bus.count_of v) (Bus.options pg))
    as [j s| |] eqn:E.
  - destruct (forEach_bestFit_lookup _ _ _ _ (or_intror E))
      as (best & Hb & _).
    rewrite list_lookup_fmap, Hb.
    cbn [Bus.submitBtn btn_className option_map fmap option_fmap].
    destruct (token_btn_allowed (btn_className (Bus.submitBtn pg)))
      as (H1 & H2 & H3).
    split; [split|]; assumption.
  - cbn [Bus.submitBtn btn_className].
    destruct (token_btn_blocked (btn_className (Bus.submitBtn pg)))
      as (H1 & H2 & H3).
    split; [split|]; assumption.
  - cbn [Bus.submitBtn]. split; [split; reflexivity | tauto].
Qed.

Lemma filter_all {A : Type} (P : A -> Prop) `{forall x, Decision (P x)}
    (l : list A) :
  Forall P l -> filter P l = l.
Proof.
  induction 1 as [|x l Hx Hl IH]; [reflexivity|].
  rewrite filter_cons_True by exact Hx. rewrite IH. reflexivity.
Qed.

Lemma classList_add_tokens tok cls :
  valid_token tok -> tok ∈ tokens cls ->
  classList_add tok cls = serialize_tokens (tokens cls).
Proof.
  intros _ Hin. unfold classList_add. fold (tokens cls).
  destruct (decide (tok ∈ tokens cls)); [reflexivity | contradiction].
Qed.

Lemma classList_remove_tokens tok cls :
  tok ∉ tokens cls ->
  classList_remove tok cls = serialize_tokens (tokens cls).
Proof.
  intros Hn. unfold classList_remove. fold (tokens cls).
  rewrite filter_all; [reflexivity|].
  apply list.Forall_forall. intros x Hx ->. contradiction.
Qed.

(** A class attribute written by [classList] reads back as it is. *)
Lemma serialize_tokens_add tok cls :
  valid_token tok ->
  serialize_tokens (tokens (classList_add tok cls)) = classList_add tok cls.
Proof.
  intros Vt. rewrite tokens_add by exact Vt. reflexivity.
Qed.

Lemma serialize_tokens_remove tok cls :
  serialize_tokens (tokens (classList_remove tok cls))
  = classList_remove tok cls.
Proof. rewrite tokens_remove. reflexivity. Qed.

Lemma btn_blocked_idem cls :
  classList_remove (lit "btn-google")
    (classList_add (lit "btn-secondary")
       (classList_remove (lit "btn-google")
          (classList_add (lit "btn-secondary") cls)))
  = classList_remove (lit "btn-google")
      (classList_add (lit "btn-secondary") cls).
Proof.
  destruct (token_btn_blocked cls) as (Hin & Hout & _).
  set (c := classList_remove (lit "btn-google")
              (classList_add (lit "btn-secondary") cls)) in *.
  rewrite (classList_remove_tokens (lit "btn-google")).
  - rewrite serialize_tokens_add by apply valid_lit_btn_secondary.
    rewrite classList_add_tokens;
      [apply serialize_tokens_remove | apply valid_lit_btn_secondary | exact Hin].
  - intros H. apply token_in_add in H as [H|H];
      [discriminate | contradiction | apply valid_lit_btn_secondary].
Qed.

Lemma btn_allowed_idem cls :
  classList_add (lit "btn-google")
    (classList_remove (lit "btn-secondary")
       (classList_add (lit "btn-google")
          (classList_remove (lit "btn-secondary") cls)))
  = classList_add (lit "btn-google")
      (classList_remove (lit "btn-secondary") cls).
Proof.
  destruct (token_btn_allowed cls) as (Hin & Hout & _).
  set (c := classList_add (lit "btn-google")
              (classList_remove (lit "btn-secondary") cls)) in *.
  rewrite classList_add_tokens.
  - rewrite serialize_tokens_remove.
    rewrite classList_remove_tokens by exact Hout.
    apply serialize_tokens_add. apply valid_lit_btn_google.
  - apply valid_lit_btn_google.
  - apply token_in_remove. split; [discriminate | exact Hin].
Qed.

(** X8. Evaluating the same input a second time on the bus page changes
    nothing: not the options, the selection, the suggestion or the
    submit button, whose class attribute the first evaluation has
    already brought into the form [classList] writes. *)
Theorem X8_bus_listener_idempotent (v : jsstring) (pg : Bus.page) :
  Bus.headcountInput_oninput v (Bus.headcountInput_oninput v pg)
  = Bus.headcountInput_oninput v pg.
Proof.
  rewrite (bus_listener v (Bus.headcountInput_oninput v pg)). cbv zeta.
  destruct (evaluate_view (Bus.count_of v) _ _ (bus_step_view v pg))
    as [_ ->].
  rewrite bus_options_after.
  assert (M : forall opts : list option_elt,
             bus_relabel (Bus.count_of v)
               <$> (bus_relabel (Bus.count_of v) <$> opts)
             = bus_relabel (Bus.count_of v) <$> opts).
  { intros opts. rewrite <- list_fmap_compose. apply list_fmap_ext.
    intros i o _. simpl. rewrite !bus_relabel_eq. apply room_relabel_idem. }
  rewrite M. rewrite (bus_listener v pg). cbv zeta.
  destruct (Bus.suggestionText pg) as [d c h].
  destruct (Bus.submitBtn pg) as [bd bt bc].
  destruct (Bus.evaluate (Bus.count_of v) (Bus.options pg));
    [destruct (_ !! _)| |];
    cbn [Bus.submitBtn Bus.suggestionText Bus.busSelect btn_className
         set_display set_className set_innerHTML className display
         innerHTML];
    try reflexivity.
  - rewrite btn_allowed_idem. reflexivity.
  - rewrite btn_blocked_idem. reflexivity.
Qed.

(** ** Reading numerals *)

Lemma parseInt_eq s :
  parseInt s
  = let '(sign, s2) := sign_prefix (trimStart s) in
    let '(R, s3) := radix_prefix s2 in
    match digits R s3 None with
    | None => NaN
    | Some m => Fin (sign * m)
    end.
Proof. reflexivity. Qed.

Lemma radix_prefix_zero (c : N) (t : jsstring) :
  c <> 120%N -> c <> 88%N ->
  radix_prefix (48%N :: c :: t) = (10, 48%N :: c :: t).
Proof.
  intros H1 H2. unfold radix_prefix.
  destruct c as [|p]; [reflexivity|].
  do 8 (try (destruct p as [p|p|]; try reflexivity; try congruence)).
Qed.

Lemma digits_stop (rest : jsstring) acc :
  ends_numeral rest -> digits 10 rest acc = acc.
Proof.
  destruct rest as [|c rest]; [reflexivity|]. simpl. intros H.
  unfold digitValue.
  destruct ((48 <=? c) && (c <=? 57))%N eqn:E1.
  - apply andb_true_iff in E1 as [A B].
    apply N.leb_le in A, B. apply orb_true_iff in H as [H|H];
      apply N.ltb_lt in H; lia.
  - destruct ((97 <=? c) && (c <=? 122))%N eqn:E2.
    + apply andb_true_iff in E2 as [A B]. apply N.leb_le in A, B.
      destruct (Z.ltb_spec (Z.of_N c - 87) 10); [lia | reflexivity].
    + destruct ((65 <=? c) && (c <=? 90))%N eqn:E3; [|reflexivity].
      apply andb_true_iff in E3 as [A B]. apply N.leb_le in A, B.
      destruct (Z.ltb_spec (Z.of_N c - 55) 10); [lia | reflexivity].
Qed.

Lemma digits_uint_acc (d : Decimal.uint) (rest : jsstring) :
  ends_numeral rest -> forall acc : positive,
  digits 10 (uint_units d ++ rest) (Some (Z.pos acc))
  = Some (Z.pos (Pos.of_uint_acc d acc)).
Proof.
  intros Hr.
  induction d as [|d IH|d IH|d IH|d IH|d IH|d IH|d IH|d IH|d IH|d IH];
    intros acc; simpl uint_units; simpl app;
    [simpl; apply digits_stop; exact Hr | ..];
    simpl digits; simpl Pos.of_uint_acc; rewrite <- IH;
    f_equal; f_equal; lia.
Qed.

Lemma digits_uint_zero (d : Decimal.uint) (rest : jsstring) :
  ends_numeral rest ->
  digits 10 (uint_units d ++ rest) (Some 0)
  = Some (Z.of_N (Pos.of_uint d)).
Proof.
  intros Hr. induction d as [|d IH|d _|d _|d _|d _|d _|d _|d _|d _|d _];
    simpl uint_units; simpl app.
  - simpl. apply digits_stop. exact Hr.
  - simpl. exact IH.
  - apply (digits_uint_acc d rest Hr 1).
  - apply (digits_uint_acc d rest Hr 2).
  - apply (digits_uint_acc d rest Hr 3).
  - apply (digits_uint_acc d rest Hr 4).
  - apply (digits_uint_acc d rest Hr 5).
  - apply (digits_uint_acc d rest Hr 6).
  - apply (digits_uint_acc d rest Hr 7).
  - apply (digits_uint_acc d rest Hr 8).
  - apply (digits_uint_acc d rest Hr 9).
Qed.

Lemma digits_uint (d : Decimal.uint) (rest : jsstring) :
  ends_numeral rest -> d <> Decimal.Nil ->
  digits 10 (uint_units d ++ rest) None = Some (Z.of_N (Pos.of_uint d)).
Proof.
  intros Hr Hd. rewrite <- (digits_uint_zero d rest Hr).
  destruct d; [contradiction | ..]; reflexivity.
Qed.

Lemma uint_units_head (d : Decimal.uint) (rest : jsstring) :
  d <> Decimal.Nil ->
  exists c t, uint_units d ++ rest = c :: t
              /\ (48 <= c <= 57)%N
              /\ (c = 48%N -> d <> Decimal.D0 Decimal.Nil ->
                  exists c' t', t = c' :: t' /\ (48 <= c' <= 57)%N).
Proof.
  destruct d as [|d|d|d|d|d|d|d|d|d|d]; intros Hd; [contradiction | | ..];
    simpl; eexists _, _; (split; [reflexivity|]); (split; [lia|]);
    try (intros H; discriminate H).
  intros _ Hz.
  destruct d as [|d|d|d|d|d|d|d|d|d|d]; [contradiction | ..];
    simpl; eexists _, _; (split; [reflexivity | lia]).
Qed.

Lemma trimStart_spaces (ws s : jsstring) :
  Forall (fun c => isWhiteSpace c = true) ws ->
  trimStart (ws ++ s) = trimStart s.
Proof.
  induction 1 as [|c ws Hc _ IH]; [reflexivity|]. simpl. rewrite Hc. exact IH.
Qed.

Lemma digit_not_space (c : N) : (48 <= c <= 57)%N -> isWhiteSpace c = false.
Proof.
  intros H. unfold isWhiteSpace.
  repeat match goal with
         | |- context [(?a <=? ?b)%N] =>
             destruct (N.leb_spec a b); try lia
         | |- context [(?a =? ?b)%N] =>
             destruct (N.eqb_spec a b); try lia
         end; reflexivity.
Qed.

Lemma parseInt_unsigned (d : Decimal.uint) (rest : jsstring) :
  d <> Decimal.Nil -> ends_numeral rest ->
  (d = Decimal.D0 Decimal.Nil -> no_hex_mark rest) ->
  forall sign : Z,
    (let '(R, s3) := radix_prefix (uint_units d ++ rest) in
     match digits R s3 None with
     | None => NaN
     | Some m => Fin (sign * m)
     end) = Fin (sign * Z.of_N (Pos.of_uint d)).
Proof.
  intros Hd Hr Hx sign.
  assert (P : radix_prefix (uint_units d ++ rest)
              = (10, uint_units d ++ rest)).
  { destruct (uint_units_head d rest Hd) as (c & t & E & Hc & Hnext).
    rewrite E.
    destruct (N.eq_dec c 48%N) as [->|Hn].
    - destruct (Decimal.uint_eq_dec d (Decimal.D0 Decimal.Nil)) as [Hz|Hz].
      + subst d. simpl in E. inversion E; subst t.
        specialize (Hx eq_refl).
        destruct rest as [|c' rest']; [reflexivity|].
        destruct Hx. apply radix_prefix_zero; auto.
      + destruct (Hnext eq_refl Hz) as (c' & t' & -> & Hc').
        apply radix_prefix_zero; lia.
    - unfold radix_prefix. destruct c as [|p]; [reflexivity|].
      do 7 (try (destruct p as [p|p|]; try reflexivity; try congruence)). }
  rewrite P. rewrite digits_uint by assumption. reflexivity.
Qed.

Lemma sign_prefix_digit (c : N) (t : jsstring) :
  (48 <= c <= 57)%N -> sign_prefix (c :: t) = (1, c :: t).
Proof.
  intros H. unfold sign_prefix. destruct c as [|p]; [reflexivity|].
  do 7 (try (destruct p as [p|p|]; try reflexivity; try lia)).
Qed.

Lemma trimStart_digit (c : N) (t : jsstring) :
  (48 <= c <= 57)%N -> trimStart (c :: t) = c :: t.
Proof. intros H. simpl. rewrite digit_not_space by exact H. reflexivity. Qed.

Lemma parseInt_numeral (z : Z) (ws rest : jsstring) :
  Forall (fun c => isWhiteSpace c = true) ws ->
  ends_numeral rest -> (z = 0 -> no_hex_mark rest) ->
  parseInt (ws ++ toString (Fin z) ++ rest) = Fin z.
Proof.
  intros Hws Hr Hx. rewrite parseInt_eq, trimStart_spaces by exact Hws.
  destruct z as [|p|p]; simpl toString.
  - change ([48%N] ++ rest) with (48%N :: rest).
    rewrite trimStart_digit, sign_prefix_digit by lia.
    change (48%N :: rest) with (uint_units (Decimal.D0 Decimal.Nil) ++ rest).
    rewrite parseInt_unsigned; auto.
  - pose proof (DecimalPos.Unsigned.to_uint_nonnil p) as Hn.
    pose proof (DecimalPos.Unsigned.to_uint_nonzero p) as Hnz.
    destruct (uint_units_head (Pos.to_uint p) rest Hn) as (c & t & E & Hc & _).
    rewrite E, trimStart_digit, sign_prefix_digit by exact Hc.
    rewrite <- E.
    rewrite (parseInt_unsigned _ rest Hn Hr (fun H => match Hnz H with end)).
    rewrite DecimalPos.Unsigned.of_to. reflexivity.
  - pose proof (DecimalPos.Unsigned.to_uint_nonnil p) as Hn.
    pose proof (DecimalPos.Unsigned.to_uint_nonzero p) as Hnz.
    change ((45%N :: uint_units (Pos.to_uint p)) ++ rest)
      with (45%N :: (uint_units (Pos.to_uint p) ++ rest)).
    change (trimStart (45%N :: (uint_units (Pos.to_uint p) ++ rest)))
      with (45%N :: (uint_units (Pos.to_uint p) ++ rest)).
    change (sign_prefix (45%N :: (uint_units (Pos.to_uint p) ++ rest)))
      with (-1, uint_units (Pos.to_uint p) ++ rest).
    cbv beta iota.
    rewrite (parseInt_unsigned _ rest Hn Hr (fun H => match Hnz H with end)).
    rewrite DecimalPos.Unsigned.of_to. reflexivity.
Qed.

(** X9. A field that holds the decimal numeral of an integer of
    magnitude up to 2^53 -- after any white space, and followed by
    nothing or by text that does not start with a digit -- is read as
    that integer: as the requirement by both listeners, and as the
    capacity of an option.  After the numeral 0 the text must not start
    with the letter x, which would make the whole a hexadecimal
    numeral. *)
Theorem X9_numeral_read_back (z : Z) (ws rest : jsstring)
    (opt : option_elt) :
  exact z ->
  Forall (fun c => isWhiteSpace c = true) ws ->
  ends_numeral rest -> (z = 0 -> no_hex_mark rest) ->
  Room.requiredSeats_of (ws ++ toString (Fin z) ++ rest) = Fin z
  /\ Bus.count_of (ws ++ toString (Fin z) ++ rest) = Fin z
  /\ (data_capacity opt = Some (ws ++ toString (Fin z) ++ rest) ->
      capacity_of opt = Fin z).
Proof.
  intros _ Hws Hr Hx.
  pose proof (parseInt_numeral z ws rest Hws Hr Hx) as P.
  assert (O : or (Fin z) (Fin 0) = Fin z).
  { unfold or. simpl. destruct (Z.eqb_spec z 0); simpl; congruence. }
  unfold Room.requiredSeats_of, Bus.count_of, capacity_of.
  rewrite P. repeat split; auto.
  intros ->. exact P.
Qed.

Lemma X9_witness :
  Room.requiredSeats_of (lit "  " ++ toString (Fin 40) ++ lit " students")
  = Fin 40.
Proof.
  destruct (X9_numeral_read_back 40 (lit "  ") (lit " students") placeholder)
    as (H & _).
  - unfold exact. lia.
  - repeat constructor.
  - reflexivity.
  - discriminate.
  - exact H.
Defined.

Example hex_requirement : Room.requiredSeats_of (lit "0x1f") = Fin 31.
Proof. reflexivity. Qed.

(** ** Times and dates *)

Lemma pad2_table :
  Forall (fun k : nat =>
            Forms.padStart 2 (lit "0") (toString (Fin (Z.of_nat k)))
            = [Z.to_N (48 + Z.of_nat k / 10); Z.to_N (48 + Z.of_nat k mod 10)])
    (seq 0 100).
Proof. apply (bool_decide_unpack _). vm_compute. reflexivity. Qed.

(** Two digits, with a leading zero below ten. *)
Lemma pad2_digits (n : Z) :
  0 <= n < 100 ->
  Forms.padStart 2 (lit "0") (toString (Fin n))
  = [Z.to_N (48 + n / 10); Z.to_N (48 + n mod 10)].
Proof.
  intros Hn. pose proof pad2_table as T.
  rewrite list.Forall_forall in T.
  specialize (T (Z.to_nat n)). rewrite Z2Nat.id in T by lia.
  apply T. apply elem_of_seq. lia.
Qed.

Lemma str_lt_hhmm (h1 m1 h2 m2 : Z) :
  0 <= h1 < 24 -> 0 <= m1 < 60 -> 0 <= h2 < 24 -> 0 <= m2 < 60 ->
  Forms.str_lt (hhmm h1 m1) (hhmm h2 m2) = (h1 * 60 + m1 <? h2 * 60 + m2).
Proof.
  intros H1 M1 H2 M2. unfold hhmm.
  rewrite !pad2_digits by lia.
  pose proof (Z.div_mod h1 10 ltac:(lia)).
  pose proof (Z.div_mod h2 10 ltac:(lia)).
  pose proof (Z.div_mod m1 10 ltac:(lia)).
  pose proof (Z.div_mod m2 10 ltac:(lia)).
  pose proof (Z.mod_pos_bound h1 10 ltac:(lia)).
  pose proof (Z.mod_pos_bound h2 10 ltac:(lia)).
  pose proof (Z.mod_pos_bound m1 10 ltac:(lia)).
  pose proof (Z.mod_pos_bound m2 10 ltac:(lia)).
  assert (0 <= h1 / 10 < 3) by (split; [apply Z.div_pos | apply Z.div_lt_upper_bound]; lia).
  assert (0 <= h2 / 10 < 3) by (split; [apply Z.div_pos | apply Z.div_lt_upper_bound]; lia).
  assert (0 <= m1 / 10 < 6) by (split; [apply Z.div_pos | apply Z.div_lt_upper_bound]; lia).
  assert (0 <= m2 / 10 < 6) by (split; [apply Z.div_pos | apply Z.div_lt_upper_bound]; lia).
  generalize dependent (h1 / 10). generalize dependent (h1 mod 10).
  generalize dependent (h2 / 10). generalize dependent (h2 mod 10).
  generalize dependent (m1 / 10). generalize dependent (m1 mod 10).
  generalize dependent (m2 / 10). generalize dependent (m2 mod 10).
  intros. simpl.
  repeat match goal with
         | |- context [(?a <? ?b)%N] => destruct (N.ltb_spec a b)
         end;
    destruct (Z.ltb_spec (h1 * 60 + m1) (h2 * 60 + m2)); try reflexivity; lia.
Qed.

(** X10. For a departure and a return time in the 24-hour form HH:MM,
    [validateTime] marks the return field invalid exactly when the
    return time is not later than the departure time, and clears the
    mark otherwise: comparing the two texts compares the two times.
    While either field is empty the mark is left as it was. *)
Theorem X10_validateTime_order (h1 m1 h2 m2 : Z) (old : jsstring) :
  0 <= h1 < 24 -> 0 <= m1 < 60 -> 0 <= h2 < 24 -> 0 <= m2 < 60 ->
  Forms.endTime_validity
    (Forms.validateTime (Forms.mkTimes (hhmm h1 m1) (hhmm h2 m2) old))
  = (if h1 * 60 + m1 <? h2 * 60 + m2 then []
     else lit "Return time must be after departure time.")
  /\ Forms.validateTime (Forms.mkTimes [] (hhmm h2 m2) old)
     = Forms.mkTimes [] (hhmm h2 m2) old
  /\ Forms.validateTime (Forms.mkTimes (hhmm h1 m1) [] old)
     = Forms.mkTimes (hhmm h1 m1) [] old
  /\ Forms.validateTime (Forms.mkTimes [] [] old) = Forms.mkTimes [] [] old.
Proof.
  intros H1 M1 H2 M2.
  assert (N1 : Forms.nonempty (hhmm h1 m1) = true).
  { unfold hhmm. rewrite !pad2_digits by lia. reflexivity. }
  assert (N2 : Forms.nonempty (hhmm h2 m2) = true).
  { unfold hhmm. rewrite !pad2_digits by lia. reflexivity. }
  split; [|split; [|split]].
  - unfold Forms.validateTime. cbn [Forms.startTime_value Forms.endTime_value].
    rewrite N1, N2. unfold Forms.str_le. rewrite str_lt_hhmm by assumption.
    destruct (h1 * 60 + m1 <? h2 * 60 + m2); reflexivity.
  - reflexivity.
  - unfold Forms.validateTime. cbn [Forms.startTime_value Forms.endTime_value].
    rewrite N1. reflexivity.
  - reflexivity.
Qed.

Lemma X10_witness :
  Forms.endTime_validity
    (Forms.validateTime
       (Forms.mkTimes (lit "14:00") (lit "09:30") []))
  = lit "Return time must be after departure time.".
Proof.
  destruct (X10_validateTime_order 14 0 9 30 []) as [H _]; try lia.
  exact H.
Defined.

Lemma year_length_table :
  forallb (fun k : nat =>
             Nat.eqb (length (toString (Fin (1000 + Z.of_nat k)))) 4)
    (seq 0 (90 * 100)) = true.
Proof. vm_compute. reflexivity. Qed.

Lemma year_length (y : Z) :
  1000 <= y <= 9999 -> length (toString (Fin y)) = 4%nat.
Proof.
  intros Hy. pose proof year_length_table as T.
  rewrite forallb_forall in T.
  specialize (T (Z.to_nat (y - 1000))). rewrite Z2Nat.id in T by lia.
  replace (1000 + (y - 1000)) with y in T by lia.
  apply Nat.eqb_eq. apply T. apply in_seq. lia.
Qed.

(** The unsigned numeral [toString] writes for a number that is not
    negative. *)
Lemma toString_uint (n : Z) :
  0 <= n ->
  exists d, toString (Fin n) = uint_units d /\ d <> Decimal.Nil
            /\ Pos.of_uint d = Z.to_N n.
Proof.
  intros Hn. destruct n as [|p|p]; [| |lia].
  - exists (Decimal.D0 Decimal.Nil). repeat split. discriminate.
  - exists (Pos.to_uint p). split; [reflexivity|].
    split; [apply DecimalPos.Unsigned.to_uint_nonnil|].
    apply DecimalPos.Unsigned.of_to.
Qed.

Lemma pad2_small_table :
  forallb (fun k : nat =>
             bool_decide
               (Forms.padStart 2 (lit "0") (toString (Fin (Z.of_nat k)))
                = 48%N :: toString (Fin (Z.of_nat k))))
    (seq 0 10) = true.
Proof. vm_compute. reflexivity. Qed.

Lemma pad2_large_table :
  forallb (fun k : nat =>
             bool_decide
               (Forms.padStart 2 (lit "0") (toString (Fin (Z.of_nat k)))
                = toString (Fin (Z.of_nat k))))
    (seq 10 90) = true.
Proof. vm_compute. reflexivity. Qed.

Lemma parseInt_pad2 (n : Z) (rest : jsstring) :
  0 <= n < 100 -> ends_numeral rest -> no_hex_mark rest ->
  parseInt (Forms.padStart 2 (lit "0") (toString (Fin n)) ++ rest) = Fin n.
Proof.
  intros Hn Hr Hx.
  destruct (Z_lt_le_dec n 10) as [Hlt|Hge].
  - assert (E : Forms.padStart 2 (lit "0") (toString (Fin n))
                = 48%N :: toString (Fin n)).
    { pose proof pad2_small_table as L. rewrite forallb_forall in L.
      specialize (L (Z.to_nat n)). rewrite Z2Nat.id in L by lia.
      eapply bool_decide_eq_true, L, in_seq. lia. }
    rewrite E. destruct (toString_uint n) as (d & -> & Hd & Hval); [lia|].
    rewrite parseInt_eq.
    change ((48%N :: uint_units d) ++ rest)
      with (48%N :: (uint_units d ++ rest)).
    rewrite trimStart_digit, sign_prefix_digit by lia.
    change (48%N :: (uint_units d ++ rest))
      with (uint_units (Decimal.D0 d) ++ rest).
    rewrite parseInt_unsigned.
    + simpl Pos.of_uint. rewrite Hval. f_equal. lia.
    + discriminate.
    + exact Hr.
    + intros H. inversion H. contradiction.
  - assert (E : Forms.padStart 2 (lit "0") (toString (Fin n))
                = toString (Fin n)).
    { pose proof pad2_large_table as L. rewrite forallb_forall in L.
      specialize (L (Z.to_nat n)). rewrite Z2Nat.id in L by lia.
      eapply bool_decide_eq_true, L, in_seq. lia. }
    rewrite E.
    apply (parseInt_numeral n [] rest); [constructor | exact Hr | lia].
Qed.

(** X11. The [min] date the pages build from the current date is the
    year, a hyphen, the month as two digits, a hyphen and the day as two
    digits, each part reading back as the number it stands for, with
    [getMonth()]'s count from 0 turned into the calendar month; for a
    four-digit year the whole has the ten characters of a date field's
    value. *)
Theorem X11_todayLocal_format (y m d : Z) :
  0 <= m <= 11 -> 1 <= d <= 31 ->
  exists mm dd,
    Forms.todayLocal y m d = toString (Fin y) ++ lit "-" ++ mm ++ lit "-" ++ dd
    /\ length mm = 2%nat /\ length dd = 2%nat
    /\ parseInt (Forms.todayLocal y m d) = Fin y
    /\ parseInt (mm ++ lit "-" ++ dd) = Fin (m + 1)
    /\ parseInt dd = Fin d
    /\ (1000 <= y <= 9999 -> length (Forms.todayLocal y m d) = 10%nat).
Proof.
  intros Hm Hd.
  exists (Forms.padStart 2 (lit "0") (toString (Fin (m + 1)))),
         (Forms.padStart 2 (lit "0") (toString (Fin d))).
  assert (Lm : length (Forms.padStart 2 (lit "0") (toString (Fin (m + 1))))
               = 2%nat) by (rewrite pad2_digits by lia; reflexivity).
  assert (Ld : length (Forms.padStart 2 (lit "0") (toString (Fin d)))
               = 2%nat) by (rewrite pad2_digits by lia; reflexivity).
  split; [reflexivity|]. split; [exact Lm|]. split; [exact Ld|].
  split; [|split; [|split]].
  - unfold Forms.todayLocal. cbv zeta.
    apply (parseInt_numeral y []); [constructor | reflexivity |].
    intros _. split; discriminate.
  - apply parseInt_pad2; [lia | reflexivity | split; discriminate].
  - rewrite <- (app_nil_r (Forms.padStart 2 _ _)).
    apply parseInt_pad2; [lia | exact I | exact I].
  - intros Hy. unfold Forms.todayLocal. cbv zeta.
    rewrite !length_app, Lm, Ld, (year_length y Hy). reflexivity.
Qed.

Lemma X11_witness :
  Forms.todayLocal 2026 0 9 = lit "2026-01-09"
  /\ length (Forms.todayLocal 2026 0 9) = 10%nat.
Proof.
  split; [reflexivity|].
  destruct (X11_todayLocal_format 2026 0 9)
    as (mm & dd & _ & _ & _ & _ & _ & _ & L); [lia | lia |].
  apply L. lia.
Defined.

(** ** Showing and hiding fields *)

Lemma hasClass_in tok cls : Forms.hasClass tok cls = true <-> tok ∈ tokens cls.
Proof. unfold Forms.hasClass. apply bool_decide_eq_true. Qed.

Lemma classList_add_idem tok cls :
  valid_token tok ->
  classList_add tok (classList_add tok cls) = classList_add tok cls.
Proof.
  intros Vt. rewrite classList_add_tokens with (cls := classList_add tok cls).
  - apply serialize_tokens_add. exact Vt.
  - exact Vt.
  - apply token_in_add; auto.
Qed.

Lemma classList_remove_idem tok cls :
  classList_remove tok (classList_remove tok cls) = classList_remove tok cls.
Proof.
  rewrite classList_remove_tokens with (cls := classList_remove tok cls).
  - apply serialize_tokens_remove.
  - intros H. apply token_in_remove in H as [H _]. congruence.
Qed.

(** X12. After the custom-time toggle fires, an element of class
    [custom-time] is hidden (carries [d-none]) exactly when the box is
    not checked, and an element that is only of class [standard-time]
    exactly when it is checked; an element of neither class keeps its
    class attribute, and no class other than [d-none] is ever added or
    removed.  The two custom inputs are required exactly when the box is
    checked and the two select inputs exactly when it is not. *)
Theorem X12_time_toggle (checked : bool) (f : Forms.timeFields) :
  let f' := Forms.customTimeToggle_onchange checked f in
  length (Forms.elements f') = length (Forms.elements f)
  /\ (forall (k : nat) cls, Forms.elements f !! k = Some cls ->
        exists cls', Forms.elements f' !! k = Some cls'
          /\ (Forms.hasClass (lit "custom-time") cls = true ->
              (lit "d-none" ∈ tokens cls' <-> checked = false))
          /\ (Forms.hasClass (lit "custom-time") cls = false ->
              Forms.hasClass (lit "standard-time") cls = true ->
              (lit "d-none" ∈ tokens cls' <-> checked = true))
          /\ (Forms.hasClass (lit "custom-time") cls = false ->
              Forms.hasClass (lit "standard-time") cls = false ->
              cls' = cls)
          /\ forall t, t <> lit "d-none" ->
               (t ∈ tokens cls' <-> t ∈ tokens cls))
  /\ Forms.start_time_custom_required f' = checked
  /\ Forms.end_time_custom_required f' = checked
  /\ Forms.start_time_select_required f' = negb checked
  /\ Forms.end_time_select_required f' = negb checked.
Proof.
  intros f'.
  assert (El : Forms.elements f'
               = Forms.toggle_element checked <$> Forms.elements f).
  { subst f'. unfold Forms.customTimeToggle_onchange.
    destruct checked; reflexivity. }
  split; [rewrite El; apply length_fmap|].
  split; [|subst f'; unfold Forms.customTimeToggle_onchange;
           destruct checked; repeat split].
  intros k cls Hk. rewrite El, list_lookup_fmap, Hk. simpl.
  eexists. split; [reflexivity|].
  pose proof valid_lit_d_none as Vd.
  unfold Forms.toggle_element.
  destruct (Forms.hasClass (lit "custom-time") cls) eqn:C,
           (Forms.hasClass (lit "standard-time") cls) eqn:S,
           checked; cbv zeta;
    (split; [intros Ec | split; [intros Ec Es | split; [intros Ec Es|]]]);
    try discriminate; try reflexivity;
    try (intros t Ht);
    rewrite ?token_in_remove, ?token_in_add by exact Vd;
    rewrite ?token_in_remove, ?token_in_add by exact Vd;
    try tauto; try (split; [tauto | intros H; discriminate H]);
    try (split; [intros [H _]; contradiction | intros H; discriminate H]).
Qed.

(** X13. [toggleExternalFields] keeps the external-resource block and
    its two inputs in step with the resource type: for the type
    "External" the block is shown and the inputs, where present, are
    required and keep their text; for any other type the block is hidden
    and the inputs are not required and emptied.  If the type field or
    the block is missing nothing changes, and calling the function again
    changes nothing. *)
Theorem X13_external_fields (p : Forms.priority) :
  let p' := Forms.toggleExternalFields p in
  (forall type cls,
     Forms.resourceType p = Some type -> Forms.externalFields p = Some cls ->
     exists cls',
       Forms.externalFields p' = Some cls'
       /\ (lit "d-none" ∈ tokens cls' <-> type <> lit "External")
       /\ (forall t, t <> lit "d-none" -> (t ∈ tokens cls' <-> t ∈ tokens cls))
       /\ (forall e, Forms.resourceName p = Some e ->
             Forms.resourceName p'
             = Some (if decide (type = lit "External")
                     then Forms.mkInput true (Forms.input_value e)
                     else Forms.mkInput false []))
       /\ (forall e, Forms.resourceNumber p = Some e ->
             Forms.resourceNumber p'
             = Some (if decide (type = lit "External")
                     then Forms.mkInput true (Forms.input_value e)
                     else Forms.mkInput false []))
       /\ (Forms.resourceName p = None -> Forms.resourceName p' = None)
       /\ (Forms.resourceNumber p = None -> Forms.resourceNumber p' = None))
  /\ (Forms.resourceType p = None \/ Forms.externalFields p = None -> p' = p)
  /\ Forms.toggleExternalFields p' = p'.
Proof.
  intros p'. subst p'. pose proof valid_lit_d_none as Vd.
  destruct p as [[type|] [cls|] name number];
    unfold Forms.toggleExternalFields;
    cbn [Forms.resourceType Forms.externalFields Forms.resourceName
         Forms.resourceNumber].
  - destruct (decide (type = lit "External")) as [E|E].
    + split; [|split].
      * intros type' cls' H1 H2. inversion H1; inversion H2; subst type' cls'.
        eexists. split; [reflexivity|].
        destruct (decide (type = lit "External")); [|contradiction].
        refine (conj _ (conj _ (conj _ (conj _ (conj _ _))))).
        -- rewrite token_in_remove. tauto.
        -- intros t Ht. rewrite token_in_remove. tauto.
        -- intros x ->. reflexivity.
        -- intros x ->. reflexivity.
        -- intros ->. reflexivity.
        -- intros ->. reflexivity.
      * intros [H|H]; discriminate.
      * cbn [Forms.resourceType Forms.externalFields Forms.resourceName
             Forms.resourceNumber].
        destruct (decide (type = lit "External")); [|contradiction].
        rewrite classList_remove_idem.
        destruct name, number; reflexivity.
    + split; [|split].
      * intros type' cls' H1 H2. inversion H1; inversion H2; subst type' cls'.
        eexists. split; [reflexivity|].
        destruct (decide (type = lit "External")); [contradiction|].
        refine (conj _ (conj _ (conj _ (conj _ (conj _ _))))).
        -- rewrite token_in_add by exact Vd. tauto.
        -- intros t Ht. rewrite token_in_add by exact Vd. tauto.
        -- intros x ->. reflexivity.
        -- intros x ->. reflexivity.
        -- intros ->. reflexivity.
        -- intros ->. reflexivity.
      * intros [H|H]; discriminate.
      * cbn [Forms.resourceType Forms.externalFields Forms.resourceName
             Forms.resourceNumber].
        destruct (decide (type = lit "External")); [contradiction|].
        rewrite classList_add_idem by exact Vd.
        destruct name, number; reflexivity.
  - split; [intros ? ? H0 H1; discriminate | split; reflexivity].
  - split; [intros ? ? H0 H1; discriminate | split; reflexivity].
  - split; [intros ? ? H0 H1; discriminate | split; reflexivity].
Qed.

(** ** What a recommendation means *)

(** X14. Whenever either listener recommends an option, with the
    requirement, the capacities and their differences in the range
    where the code's numbers are exact, the recommendation is sound: the
    option is a candidate (not the placeholder) whose capacity is a
    number of at least the requirement, the surplus reported is that
    capacity less the requirement and is not negative, no candidate
    that fits has a smaller capacity, and none of the same capacity is
    listed earlier. *)
Theorem X14_best_fit_sound (z : Z) (opts : list option_elt) (j : nat)
    (s : num) :
  exact_for z opts ->
  Room.evaluate (Fin z) opts = BestFit j s
  \/ Bus.evaluate (Fin z) opts = BestFit j s ->
  exists best c,
    opts !! j = Some best /\ value best <> []
    /\ capacity_of best = Fin c /\ z <= c
    /\ s = Fin (c - z) /\ 0 <= c - z
    /\ forall (k : nat) opt c', opts !! k = Some opt -> value opt <> [] ->
         capacity_of opt = Fin c' -> z <= c' ->
         c <= c' /\ (c' = c -> (j <= k)%nat).
Proof.
  intros _. rewrite room_evaluate_search, bus_evaluate_search.
  intros H.
  assert (E : search (Fin z) opts = (Some j, s)).
  { destruct (search (Fin z) opts) as [[i|] t].
    - destruct H as [H|H].
      + inversion H. reflexivity.
      + destruct (gt (Fin z) (Fin 0) && negb (existsb (fits (Fin z)) opts));
          [discriminate|]. inversion H. reflexivity.
    - destruct H as [H|H].
      + destruct (gt (Fin z) (Fin 0)); discriminate.
      + destruct (gt (Fin z) (Fin 0) && negb (existsb (fits (Fin z)) opts));
          discriminate. }
  destruct (search_some_inv _ _ _ _ E)
    as (best & c & Hb & Hv & Hc & Hz & Hs & Hmin).
  exists best, c. repeat split; auto; try lia; apply (Hmin k opt c'); auto.
Qed.

Lemma X14_witness :
  exists best c,
    rooms !! 3%nat = Some best /\ capacity_of best = Fin c /\ 40 <= c
    /\ Fin 5 = Fin (c - 40).
Proof.
  destruct (X14_best_fit_sound 40 rooms 3 (Fin 5)
              (rooms_exact 40 ltac:(lia)) (or_introl eq_refl))
    as (best & c & Hb & _ & Hc & Hz & Hs & _).
  exists best, c. auto.
Defined.

